(** * pdf-to-png: the PDF to PNG conversion handlers

    A shallow embedding of the two event handlers of the repository:
    - [Push.handler], the Express endpoint [app.post('/')] of
      [Docker/pdf-to-png.js], fed by a Pub/Sub push subscription;
    - [Direct.createImage], the storage-triggered function of the second
      source file.

    JavaScript strings are modelled as [string], sequences of 8-bit
    characters: [toLowerCase] and the [i] flag act on the letters A to Z and
    carry every other character along. The regular expressions of the source
    are written in a small regular-expression syntax and run by a
    backtracking matcher. The local directories, the storage buckets, the
    order-item store and the record of the calls issued are an explicit
    state, threaded through a state-and-exception monad; what the outside
    answers (the temporary directory, the random number, the decoding of a
    payload, the success of each external call) is a parameter of the
    handlers. Logging is left out. *)

From Stdlib Require Import Ascii ZArith.
From stdpp Require Import base strings gmap list.

Set Warnings "-clear-no-such-hyp".

(** ** Strings *)

Module Str.

(** [s.length] *)
Fixpoint len (s : string) : nat :=
  match s with
  | EmptyString => 0
  | String _ s' => S (len s')
  end.

(** The string without its first [n] characters: [s.slice(n)]. *)
Fixpoint skip (n : nat) (s : string) : string :=
  match n, s with
  | O, _ => s
  | S _, EmptyString => EmptyString
  | S n', String _ s' => skip n' s'
  end.

(** The first [n] characters: [s.slice(0, n)]. *)
Fixpoint keep (n : nat) (s : string) : string :=
  match n, s with
  | O, _ => EmptyString
  | S _, EmptyString => EmptyString
  | S n', String c s' => String c (keep n' s')
  end.

Definition is_upper (c : ascii) : bool :=
  (65 <=? nat_of_ascii c)%nat && (nat_of_ascii c <=? 90)%nat.

(** One character of [toLowerCase]: the letters A to Z move to a to z, every
    other character is kept. *)
Definition lower (c : ascii) : ascii :=
  if is_upper c then ascii_of_nat (nat_of_ascii c + 32) else c.

(** [s.toLowerCase()] *)
Fixpoint toLowerCase (s : string) : string :=
  match s with
  | EmptyString => EmptyString
  | String c s' => String (lower c) (toLowerCase s')
  end.

(** [s.endsWith(suffix)] *)
Definition endsWith (s suffix : string) : bool :=
  (len suffix <=? len s)%nat
  && bool_decide (skip (len s - len suffix) s = suffix).

(** [s.replace(/c/g, by)] for a pattern that is one literal character. *)
Fixpoint replaceAllChar (c : ascii) (by_ : string) (s : string) : string :=
  match s with
  | EmptyString => EmptyString
  | String d s' =>
      if bool_decide (d = c) then by_ +:+ replaceAllChar c by_ s'
      else String d (replaceAllChar c by_ s')
  end.

(** [s.split(sep).pop()] for a separator of one character: the part of [s]
    after its last [sep], all of [s] when it has none. [seg] is the segment
    being read. *)
Fixpoint lastSegment_from (sep : ascii) (seg : string) (s : string) : string :=
  match s with
  | EmptyString => seg
  | String d s' =>
      if bool_decide (d = sep) then lastSegment_from sep EmptyString s'
      else lastSegment_from sep (seg +:+ String d EmptyString) s'
  end.

Definition splitPop (sep : ascii) (s : string) : string :=
  lastSegment_from sep EmptyString s.

(** [c] occurs in [s]. *)
Fixpoint has (c : ascii) (s : string) : bool :=
  match s with
  | EmptyString => false
  | String d s' => bool_decide (d = c) || has c s'
  end.

End Str.

(** ** Regular expressions

    The three shapes the source's patterns are made of: one character
    (literal, literal under the [i] flag, or a negated class of one
    character), a capturing group around a greedy [+] of one character, and
    the end anchor. *)

Module Regex.

Inductive atom : Type :=
  | Lit (c : ascii)        (* [c], written [\c] where needed *)
  | LitI (c : ascii)       (* [c] under the [i] flag *)
  | Not (c : ascii).       (* [[^c]] *)

Inductive item : Type :=
  | One (a : atom)
  | GroupPlus (a : atom)   (* [(a+)] *)
  | AtEnd.                 (* [$] *)

Definition pattern : Type := list item.

Definition accepts (a : atom) (d : ascii) : bool :=
  match a with
  | Lit c => bool_decide (d = c)
  | LitI c => bool_decide (Str.lower d = Str.lower c)
  | Not c => negb (bool_decide (d = c))
  end.

(** A greedy [a+] followed by the continuation [k]: [taken] holds the
    characters consumed so far. The longer repetition is tried first, and
    the shorter one only when the rest of the pattern fails after it. *)
Fixpoint plus {R : Type} (a : atom) (k : string → string → option R)
    (taken : string) (s : string) : option R :=
  match s with
  | EmptyString => None
  | String d s' =>
      if accepts a d then
        let taken' := taken +:+ String d EmptyString in
        match plus a k taken' s' with
        | Some r => Some r
        | None => k taken' s'
        end
      else None
  end.

(** Matches [p] at the start of [s]: the captured groups (after [caps]) and
    the unread rest of [s]. *)
Fixpoint run (p : pattern) (caps : list string) (s : string)
    : option (list string * string) :=
  match p with
  | [] => Some (caps, s)
  | One a :: p' =>
      match s with
      | String d s' => if accepts a d then run p' caps s' else None
      | EmptyString => None
      end
  | GroupPlus a :: p' =>
      plus a (λ g rest, run p' (caps ++ [g]) rest) EmptyString s
  | AtEnd :: p' =>
      match s with
      | EmptyString => run p' caps s
      | String _ _ => None
      end
  end.

(** The leftmost match of [p] in [s]: what precedes it ([before] is what
    was skipped so far), its groups, and what follows it. *)
Fixpoint search (p : pattern) (before : string) (s : string)
    : option (string * list string * string) :=
  match run p [] s with
  | Some (caps, rest) => Some (before, caps, rest)
  | None =>
      match s with
      | EmptyString => None
      | String d s' => search p (before +:+ String d EmptyString) s'
      end
  end.

(** [s.match(p)] for a pattern without the [g] flag: [null], or the array
    of the matched text followed by the groups. *)
Definition js_match (p : pattern) (s : string) : option (list string) :=
  match search p EmptyString s with
  | Some (before, caps, rest) =>
      let matched :=
        Str.keep (Str.len s - Str.len before - Str.len rest)
                 (Str.skip (Str.len before) s) in
      Some (matched :: caps)
  | None => None
  end.

(** [s.replace(p, by)] for a pattern without the [g] flag and a replacement
    without [$]: the leftmost match is replaced, [s] is returned as it is
    when there is none. *)
Definition js_replace (p : pattern) (by_ : string) (s : string) : string :=
  match search p EmptyString s with
  | Some (before, _, rest) => before +:+ by_ +:+ rest
  | None => s
  end.

End Regex.

(** ** The patterns of the source *)

(** [/\(([^)]+)\)\(([^)]+)\)/] *)
Definition idPattern : Regex.pattern :=
  [ Regex.One (Regex.Lit "("); Regex.GroupPlus (Regex.Not ")");
    Regex.One (Regex.Lit ")");
    Regex.One (Regex.Lit "("); Regex.GroupPlus (Regex.Not ")");
    Regex.One (Regex.Lit ")") ].

(** [/\.pdf$/i] *)
Definition pdfSuffix : Regex.pattern :=
  [ Regex.One (Regex.LitI "."); Regex.One (Regex.LitI "p");
    Regex.One (Regex.LitI "d"); Regex.One (Regex.LitI "f"); Regex.AtEnd ].

(** [filePath.toLowerCase().endsWith('.pdf')] *)
Definition isPdf (filePath : string) : bool :=
  Str.endsWith (Str.toLowerCase filePath) ".pdf".

(** [filePath.replace(/\.pdf$/i, '.png')] *)
Definition toPngPath (filePath : string) : string :=
  Regex.js_replace pdfSuffix ".png" filePath.

(** Lines 72-79 of [pdf-to-png.js]: [match], then [match[1]] and [match[2]].
    An index outside the array reads [undefined], which is [None] here. *)
Definition parseIds (filePath : string) : option (option string * option string) :=
  match Regex.js_match idPattern filePath with
  | None => None
  | Some m => Some (m !! 1%nat, m !! 2%nat)
  end.

(** ** The order-item store

    The Realtime Database node [.../models/orderItems]: a map from record id
    to record, a record being a map from field name to value. A field that a
    record does not have reads [undefined], which is [None] here. *)

Inductive jsval : Type :=
| JBool (b : bool)
| JNum (n : Z)
| JStr (s : string)
| JObj.

#[global] Instance jsval_eq_dec : EqDecision jsval.
Proof. solve_decision. Defined.

(** The truth value JavaScript gives a field in a condition. *)
Definition truthy (v : option jsval) : bool :=
  match v with
  | None => false
  | Some (JBool b) => b
  | Some (JNum n) => negb (n =? 0)%Z
  | Some (JStr s) => negb (bool_decide (s = EmptyString))
  | Some JObj => true
  end.

(** The truth value of a string that may be [undefined]. *)
Definition truthyStr (v : option string) : bool :=
  match v with
  | None => false
  | Some s => negb (bool_decide (s = EmptyString))
  end.

Abbreviation record := (gmap string jsval).
Abbreviation store := (gmap string (gmap string jsval)).

(** [ref.child(id).update(fields)] for an [id] that the database reads as one
    key: the listed fields of the record are written, its other fields are
    kept; a record that does not exist yet comes into being with the listed
    fields only. (The database reads a slash in [id] as a step into the
    record; the store of this model is flat and does not follow such a path.
    The properties of the store are stated for identifiers that are keys.) *)
Definition dbUpdate (id : string) (fields : list (string * jsval)) (db : store) : store :=
  <[id := list_to_map fields ∪ default ∅ (db !! id)]> db.

(** [ref.orderByChild(field).equalTo(v)]: the children whose [field] is [v]. *)
Definition orderByChildEqualTo (field : string) (v : jsval) (db : store) : store :=
  filter (λ kv, kv.2 !! field = Some v) db.

(** [snapshot.val()]: [null] for a snapshot without children. *)
Definition snapshotVal (snapshot : store) : option store :=
  if bool_decide (snapshot = ∅) then None else Some snapshot.

(** [Object.values(o)] *)
Definition objectValues (o : store) : list record := (map_to_list o).*2.

(** ** Effects *)

(** The options given to the Ghostscript command builder before [exec]. *)
Record gsJob : Type := GsJob {
  gs_batch : bool;
  gs_nopause : bool;
  gs_device : string;
  gs_resolution : option Z;
  gs_output : string;
  gs_input : string
}.

(** The calls a handler makes on the file system and on external services,
    recorded when they are issued, whether they succeed or not. *)
Inductive call : Type :=
| MkdirSync (dir : string)
| RimrafSync (dir : string)
| StorageDownload (bucket file destination : string)
| GsExec (job : gsJob)
| StorageUpload (localPath bucket destination : string)
| DbUpdate (id : string) (fields : list (string * jsval))
| DbQuery (field : string) (v : jsval)
| AxiosPost (url : string) (order : string).

#[global] Instance gsJob_eq_dec : EqDecision gsJob.
Proof. solve_decision. Defined.
#[global] Instance call_eq_dec : EqDecision call.
Proof. solve_decision. Defined.

(** What a handler can change: the local directories, the objects held by the
    storage buckets (bucket and key), the order-item store, and the record of
    the calls issued so far. *)
Record state : Type := State {
  dirs : gset string;
  objects : gset (string * string);
  orderItems : gmap string (gmap string jsval);
  calls : list call
}.

(** The payload of a storage event: its bucket and its name, [None] for a
    field that is missing (or, for the name, not a string). *)
Record gcsEvent : Type := GcsEvent {
  ev_bucket : option string;
  ev_name : option string
}.

(** What the environment answers during one handling: the values of
    [os.tmpdir()] and [Math.random()], the decoding of a push payload
    (base64, then [JSON.parse]; [None] when it throws), and for each external
    call whether it succeeds. A handling issues each of these calls once at
    most. *)
Record world : Type := World {
  tmpdir : string;
  random : string;
  decodeEvent : string → option gcsEvent;
  download_ok : bool;
  gs_ok : bool;
  upload_ok : bool;
  update_ok : bool;
  query_ok : bool;
  post_ok : bool
}.

(** ** The monad of handlers: state, and exceptions *)

Inductive result (A : Type) : Type :=
| Ok (a : A)
| Thrown.
Arguments Ok {A} a.
Arguments Thrown {A}.

Definition M (A : Type) : Type := state → result A * state.

Definition ret {A} (a : A) : M A := λ st, (Ok a, st).

Definition throw {A} : M A := λ st, (Thrown, st).

Definition bind {A B} (m : M A) (f : A → M B) : M B :=
  λ st, match m st with
        | (Ok a, st') => f a st'
        | (Thrown, st') => (Thrown, st')
        end.

(** [try { m } catch (e) { h }] *)
Definition tryCatch {A} (m : M A) (h : M A) : M A :=
  λ st, match m st with
        | (Ok a, st') => (Ok a, st')
        | (Thrown, st') => h st'
        end.

Notation "'let*' x ':=' m 'in' k" := (bind m (λ x, k))
  (at level 10, x name, m at level 100, k at level 200, only parsing).
Notation "m ;;; k" := (bind m (λ _, k))
  (at level 100, right associativity, only parsing).

Definition record_call (c : call) : M unit :=
  λ st, (Ok tt, State (dirs st) (objects st) (orderItems st) (calls st ++ [c])).

(** The outcome of an external call. *)
Definition settle (ok : bool) : M unit := if ok then ret tt else throw.

(** [fs.mkdirSync(dir)]: throws when [dir] exists. This is the one failure
    of the call that the model has: it has none for a name beyond the limit
    of the file system or for a missing parent directory. *)
Definition mkdirSync (dir : string) : M unit :=
  record_call (MkdirSync dir) ;;;
  λ st, if bool_decide (dir ∈ dirs st) then (Thrown, st)
        else (Ok tt, State ({[dir]} ∪ dirs st) (objects st) (orderItems st) (calls st)).

(** [rimraf.sync(dir)]: [dir] is gone afterwards, whether it existed or not. *)
Definition rimrafSync (dir : string) : M unit :=
  record_call (RimrafSync dir) ;;;
  λ st, (Ok tt, State (dirs st ∖ {[dir]}) (objects st) (orderItems st) (calls st)).

(** [storage.bucket(bucket).file(file).download({ destination })] *)
Definition storageDownload (w : world) (bucket file destination : string) : M unit :=
  record_call (StorageDownload bucket file destination) ;;;
  settle (download_ok w).

(** [storage.bucket(bucket).upload(localPath, { destination })] *)
Definition storageUpload (w : world) (localPath bucket destination : string) : M unit :=
  record_call (StorageUpload localPath bucket destination) ;;;
  settle (upload_ok w) ;;;
  λ st, (Ok tt, State (dirs st) ({[(bucket, destination)]} ∪ objects st)
                      (orderItems st) (calls st)).

(** [gs()...exec(callback)] inside the promise: resolved when the callback
    gets no error, rejected otherwise. *)
Definition gsExec (w : world) (job : gsJob) : M unit :=
  record_call (GsExec job) ;;;
  settle (gs_ok w).

(** [tablesRef.child('orderItems').child(id).update(fields)] *)
Definition orderItemUpdate (w : world) (id : string) (fields : list (string * jsval)) : M unit :=
  record_call (DbUpdate id fields) ;;;
  settle (update_ok w) ;;;
  λ st, (Ok tt, State (dirs st) (objects st) (dbUpdate id fields (orderItems st)) (calls st)).

(** [tablesRef.child('orderItems').orderByChild(field).equalTo(v).once('value')] *)
Definition orderItemsQuery (w : world) (field : string) (v : jsval) : M store :=
  record_call (DbQuery field v) ;;;
  settle (query_ok w) ;;;
  λ st, (Ok (orderByChildEqualTo field v (orderItems st)), st).

(** [axios.post(url, { order })] *)
Definition axiosPost (w : world) (url order : string) : M unit :=
  record_call (AxiosPost url order) ;;;
  settle (post_ok w).

(** The double-quote character, as a string. *)
Definition dquote : string := String "034" EmptyString.

(** [a || b] on strings that may be [undefined]. *)
Definition orElse (a : option string) (b : string) : string :=
  match a with
  | Some s => if bool_decide (s = EmptyString) then b else s
  | None => b
  end.

(** A value that must be there: reading a property of [undefined] or [null],
    or a failing parse, throws. *)
Definition must {A} (v : option A) : M A :=
  match v with
  | Some a => ret a
  | None => throw
  end.

(** ** The push endpoint: [app.post('/')] of [Docker/pdf-to-png.js] *)

Module Push.

Definition BUCKET_NAME : string := "pdf-to-png".
Definition DESTINATION_BUCKET : string := "pdf-to-png-output".

(** The status of an approved order item (line 110). *)
Definition APPROVED : string := "-O-MBXnADt_rc_l7Lm8U".

Definition WEBHOOK_URL : string :=
  "https://tangleapps.com/webhook?workflow=-OGo_Wq_agZdYobMm4ev&dashboard=-N6rrHXdX4pO-T2cMbmS".

(** The body of a push request, as far as the handler reads it:
    [req.body?.message] and its [data]. *)
Record pubsubMessage : Type := PubsubMessage { data : option string }.
Record request : Type := Request { message : option pubsubMessage }.

Inductive response : Type :=
| SendStatus (code : Z)                 (* [res.sendStatus(code)] *)
| StatusSend (code : Z) (body : string). (* [res.status(code).send(body)] *)

Definition statusCode (r : response) : Z :=
  match r with
  | SendStatus code => code
  | StatusSend code _ => code
  end.

(** The payload when [!pubsubMessage || !pubsubMessage.data] is false. *)
Definition messageData (req : request) : option string :=
  match message req with
  | None => None
  | Some pubsubMessage =>
      if truthyStr (data pubsubMessage) then data pubsubMessage else None
  end.

Definition createTempDir (w : world) (filePath : string) : M string :=
  let safeName := Str.replaceAllChar "." "_" (Str.replaceAllChar "/" "_" filePath) in
  let tempDir := tmpdir w +:+ "/" +:+ safeName +:+ "_" +:+ random w in
  mkdirSync tempDir ;;;
  ret tempDir.

Definition downloadPdf (w : world) (bucketName filePath tempDir : string) : M string :=
  let destination := tempDir +:+ "/" +:+ Str.splitPop "/" filePath in
  storageDownload w bucketName filePath destination ;;;
  ret destination.

Definition convertPdfToImage (w : world) (pdfPath : string) : M string :=
  let imagePath := toPngPath pdfPath in
  let quotedPdfPath := dquote +:+ pdfPath +:+ dquote in
  let quotedImagePath := dquote +:+ imagePath +:+ dquote in
  gsExec w (GsJob true true "png256" (Some 72%Z) quotedImagePath quotedPdfPath) ;;;
  ret imagePath.

Definition uploadImage (w : world) (localPngPath bucketName filePath : string) : M unit :=
  storageUpload w localPngPath bucketName filePath.

Definition deleteDir (dirPath : string) : M unit :=
  rimrafSync dirPath.

(** [orderItem => orderItem.orderItemStatus === '-O-MBXnADt_rc_l7Lm8U'] *)
Definition approved (orderItem : record) : bool :=
  bool_decide (orderItem !! "orderItemStatus" = Some (JStr APPROVED)).

(** [item => item.pngExtracted] *)
Definition pngExtracted (item : record) : bool :=
  truthy (item !! "pngExtracted").

(** Lines 110-111: the approved items of the snapshot, and whether each of
    them has been extracted. *)
Definition allExtracted (orderItems : store) : bool :=
  let orderItems := List.filter approved (objectValues orderItems) in
  forallb pngExtracted orderItems.

(** Lines 100-126: the query for the items of the order, and the webhook when
    the check passes. A failure of the webhook is caught here. *)
Definition notifyIfComplete (w : world) (orderId : string) : M unit :=
  let* orderItemsSnapshot := orderItemsQuery w "order" (JStr orderId) in
  match snapshotVal orderItemsSnapshot with
  | Some orderItems =>
      if allExtracted orderItems then
        tryCatch (axiosPost w WEBHOOK_URL orderId) (ret tt)
      else ret tt
  | None => ret tt
  end.

(** Lines 94-128. *)
Definition trackOrder (w : world) (orderId orderItemId : option string) : M unit :=
  match orderId, orderItemId with
  | Some orderId', Some orderItemId' =>
      if truthyStr orderId && truthyStr orderItemId then
        orderItemUpdate w orderItemId' [("pngExtracted", JBool true)] ;;;
        notifyIfComplete w orderId'
      else ret tt
  | _, _ => ret tt
  end.

(** The [try] block, lines 36-134. *)
Definition attempt (w : world) (req : request) : M response :=
  match messageData req with
  | None => ret (SendStatus 400)
  | Some payload =>
      let* gcsEvent := must (decodeEvent w payload) in
      let bucketName := orElse (ev_bucket gcsEvent) BUCKET_NAME in
      let* filePath := must (ev_name gcsEvent) in
      if negb (isPdf filePath) then ret (StatusSend 200 "Not a PDF, ignoring.")
      else
        match parseIds filePath with
        | None => ret (StatusSend 400 "Invalid file name format.")
        | Some (orderId, orderItemId) =>
            let* tempDir := createTempDir w filePath in
            let* localPdfPath := downloadPdf w bucketName filePath tempDir in
            let* localPngPath := convertPdfToImage w localPdfPath in
            let newFilePath := toPngPath filePath in
            uploadImage w localPngPath DESTINATION_BUCKET newFilePath ;;;
            trackOrder w orderId orderItemId ;;;
            deleteDir tempDir ;;;
            ret (StatusSend 200 ("Converted PDF to PNG for file: " +:+ filePath))
        end
  end.

(** The handler: the [try] block, and [catch (err) { return res.sendStatus(200) }]. *)
Definition handler (w : world) (req : request) : M response :=
  tryCatch (attempt w req) (ret (SendStatus 200)).

End Push.

(** ** The storage trigger: [exports.createImage] *)

Module Direct.

(** The object of a storage event, as far as the handler reads it. *)
Record storageObject : Type := StorageObject {
  bucket : string;
  name : string
}.

Definition createTempDir (w : world) (fileName : string) : M string :=
  let safeName := Str.replaceAllChar "." "_" (Str.replaceAllChar "/" "_" fileName) in
  let tempDir := tmpdir w +:+ "/" +:+ safeName +:+ "_" +:+ random w in
  mkdirSync tempDir ;;;
  ret tempDir.

Definition downloadPdf (w : world) (bucketName tempDir filePath : string) : M string :=
  let destination := tempDir +:+ "/" +:+ Str.splitPop "/" filePath in
  storageDownload w bucketName filePath destination ;;;
  ret destination.

Definition convertPdfToImage (w : world) (pdfPath : string) : M string :=
  let imagePath := toPngPath pdfPath in
  gsExec w (GsJob true true "png16m" None imagePath pdfPath) ;;;
  ret imagePath.

Definition uploadImage (w : world) (localPngPath bucketName filePath : string) : M unit :=
  storageUpload w localPngPath bucketName filePath.

Definition deleteDir (dirPath : string) : M unit :=
  rimrafSync dirPath.

(** The exported function; [Thrown] is the rejection of the promise that it
    returns. *)
Definition createImage (w : world) (object : storageObject) : M unit :=
  let bucketName := bucket object in
  let filePath := name object in
  if negb (isPdf filePath) then ret tt
  else
    let* tempDir := createTempDir w filePath in
    let* tmpPdfPath := downloadPdf w bucketName tempDir filePath in
    let* tmpPngPath := convertPdfToImage w tmpPdfPath in
    let newFilePath := toPngPath filePath in
    uploadImage w tmpPngPath bucketName newFilePath ;;;
    deleteDir tempDir.

End Direct.

(** ** Notions used to state the properties *)

(** The key holds, after [pre], an opening parenthesis, the identifier [o],
    [)(], the identifier [i] and a closing parenthesis, the two identifiers
    being non-empty and free of closing parentheses. *)
Definition idsAt (key pre o i post : string) : Prop :=
  key = pre +:+ "(" +:+ o +:+ ")(" +:+ i +:+ ")" +:+ post
  ∧ o ≠ EmptyString ∧ i ≠ EmptyString
  ∧ Str.has ")" o = false ∧ Str.has ")" i = false.

(** The directory that [createTempDir] makes for a key (the same expression in
    both source files). *)
Definition workspace (w : world) (filePath : string) : string :=
  tmpdir w +:+ "/" +:+
  Str.replaceAllChar "." "_" (Str.replaceAllChar "/" "_" filePath) +:+
  "_" +:+ random w.

(** The bucket and the key that the push handler gets out of a request
    (lines 45-61): [None] when the message or its data is missing, and when
    the handler throws before it holds a key. *)
Definition pushEvent (w : world) (req : Push.request) : option (string * string) :=
  match Push.messageData req with
  | None => None
  | Some payload =>
      match decodeEvent w payload with
      | None => None
      | Some gcsEvent =>
          match ev_name gcsEvent with
          | None => None
          | Some filePath => Some (orElse (ev_bucket gcsEvent) Push.BUCKET_NAME, filePath)
          end
      end
  end.

(** The decision taken by lines 101-113 on a given store: whether the webhook
    is called for the order. *)
Definition completionCheck (db : store) (orderId : string) : bool :=
  match snapshotVal (orderByChildEqualTo "order" (JStr orderId) db) with
  | Some orderItems => Push.allExtracted orderItems
  | None => false
  end.

(** The approved items of an order. *)
Definition approvedItems (db : store) (orderId : string) : list record :=
  List.filter Push.approved (objectValues (orderByChildEqualTo "order" (JStr orderId) db)).

(** The completion check as the specification words it: the approved items
    of the order are not empty, and each has [pngExtracted] equal to [true]. *)
Definition spec_isOrderComplete (db : store) (orderId : string) : bool :=
  negb (bool_decide (approvedItems db orderId = []))
  && forallb (λ item, bool_decide (item !! "pngExtracted" = Some (JBool true)))
             (approvedItems db orderId).

(** The field [fld] of the record [id], [None] when the record or the field
    is missing. *)
Definition field (db : store) (id fld : string) : option jsval :=
  match db !! id with
  | Some item => item !! fld
  | None => None
  end.

(** The calls that touch the order-item store or the webhook. *)
Definition isTracking (c : call) : bool :=
  match c with
  | DbUpdate _ _ | DbQuery _ _ | AxiosPost _ _ => true
  | _ => false
  end.

(** *** The course of a handling

    What a handler does on a [.pdf] key once its directory is made, told by
    the answers of the world: the steps reached, and the calls issued. *)

(** The transfer steps succeed. *)
Definition transferred (w : world) : bool :=
  download_ok w && gs_ok w && upload_ok w.

(** Every step of the push handler that can make it throw succeeds. *)
Definition tracked (w : world) : bool :=
  transferred w && update_ok w && query_ok w.

Definition pdfIn (w : world) (filePath : string) : string :=
  workspace w filePath +:+ "/" +:+ Str.splitPop "/" filePath.

Definition flagExtracted : list (string * jsval) := [("pngExtracted", JBool true)].

Definition pushCalls (w : world) (bucketName filePath orderId orderItemId : string)
    (db : store) : list call :=
  let tempDir := workspace w filePath in
  let pdf := pdfIn w filePath in
  [MkdirSync tempDir; StorageDownload bucketName filePath pdf]
  ++ (if download_ok w then
        GsExec (GsJob true true "png256" (Some 72%Z)
                      (dquote +:+ toPngPath pdf +:+ dquote) (dquote +:+ pdf +:+ dquote))
        :: (if gs_ok w then
              StorageUpload (toPngPath pdf) Push.DESTINATION_BUCKET (toPngPath filePath)
              :: (if upload_ok w then
                    DbUpdate orderItemId flagExtracted
                    :: (if update_ok w then
                          DbQuery "order" (JStr orderId)
                          :: (if query_ok w then
                                (if completionCheck (dbUpdate orderItemId flagExtracted db) orderId
                                 then [AxiosPost Push.WEBHOOK_URL orderId] else [])
                                ++ [RimrafSync tempDir]
                              else [])
                        else [])
                  else [])
            else [])
      else []).

Definition directCalls (w : world) (bucketName filePath : string) : list call :=
  let tempDir := workspace w filePath in
  let pdf := pdfIn w filePath in
  [MkdirSync tempDir; StorageDownload bucketName filePath pdf]
  ++ (if download_ok w then
        GsExec (GsJob true true "png16m" None (toPngPath pdf) pdf)
        :: (if gs_ok w then
              StorageUpload (toPngPath pdf) bucketName (toPngPath filePath)
              :: (if upload_ok w then [RimrafSync tempDir] else [])
            else [])
      else []).

(** *** Words of a shell command *)

Fixpoint anyChar (p : ascii → bool) (s : string) : bool :=
  match s with
  | EmptyString => false
  | String c s' => p c || anyChar p s'
  end.

(** The characters that end or alter an unquoted word of a shell command. *)
Definition shellSpecial (c : ascii) : bool :=
  match c with
  | " " | "009" | "010" | "(" | ")" | "&" | ";" | "|" | "<" | ">"
  | "$" | "`" | "\" | "'" | "034" | "*" | "?" | "[" | "#" | "~" => true
  | _ => false
  end%char.

(** The characters that keep a meaning between double quotes. *)
Definition dquoteSpecial (c : ascii) : bool :=
  match c with
  | "034" | "$" | "`" | "\" => true
  | _ => false
  end%char.

(** The text between the double quotes of a word written in double quotes. *)
Definition unquote (arg : string) : option string :=
  match arg with
  | String "034" s' =>
      if bool_decide (Str.skip (Str.len s' - 1) s' = dquote)
      then Some (Str.keep (Str.len s' - 1) s') else None
  | _ => None
  end.

(** The argument reaches the converter as one word that reads [path]. *)
Definition shellWordFor (path arg : string) : bool :=
  (negb (anyChar shellSpecial arg) && bool_decide (arg = path))
  || match unquote arg with
     | Some inner => negb (anyChar dquoteSpecial inner) && bool_decide (inner = path)
     | None => false
     end.

(** The Ghostscript jobs among a list of calls. *)
Definition gsJobs (cs : list call) : list gsJob :=
  omap (λ c, match c with GsExec job => Some job | _ => None end) cs.

(** *** Sample worlds, states and events *)

(** A world in which every external call succeeds, with a decoder that reads
    the payload as the object key of the default bucket. *)
Definition calm : world :=
  World "/tmp" "0.5" (λ payload, Some (GcsEvent None (Some payload)))
        true true true true true true.

Definition noDownload : world :=
  World "/tmp" "0.5" (λ payload, Some (GcsEvent None (Some payload)))
        false true true true true true.

Definition noWebhook : world :=
  World "/tmp" "0.5" (λ payload, Some (GcsEvent None (Some payload)))
        true true true true true false.

Definition empty_state : state := State ∅ ∅ ∅ [].

(** The world [w], but for the answer of the webhook. *)
Definition withWebhook (ok : bool) (w : world) : world :=
  World (tmpdir w) (random w) (decodeEvent w) (download_ok w) (gs_ok w)
        (upload_ok w) (update_ok w) (query_ok w) ok.

Definition push_of (payload : string) : Push.request :=
  Push.Request (Some (Push.PubsubMessage (Some payload))).

Definition no_data : Push.request :=
  Push.Request (Some (Push.PubsubMessage None)).

(** One pending item of order [X]. *)
Definition pending_only : store :=
  {[ "I1" := list_to_map [("order", JStr "X"); ("orderItemStatus", JStr "pending")] ]}.

(** Two approved items of order [X], the second extracted or not. *)
Definition two_approved (second : bool) : store :=
  list_to_map
    [ ("1", list_to_map [("order", JStr "X"); ("orderItemStatus", JStr Push.APPROVED);
                         ("pngExtracted", JBool true)]);
      ("2", list_to_map [("order", JStr "X"); ("orderItemStatus", JStr Push.APPROVED);
                         ("pngExtracted", JBool second)]) ].

(** The approved item [I1] of order [O100], not extracted yet. *)
Definition sole_item : store :=
  {[ "I1" := list_to_map [("order", JStr "O100"); ("orderItemStatus", JStr Push.APPROVED);
                          ("pngExtracted", JBool false)] ]}.

Definition sole_state : state := State ∅ ∅ sole_item [].

(** A state in which the directory of the key [case(O100)(I1).pdf] is there
    already. *)
Definition taken_state : state :=
  State {[ "/tmp/case(O100)(I1)_pdf_0.5" ]} ∅ sole_item [].

(** The characters that a key of the database cannot hold: the slash, which
    separates the keys of a path, the characters that the database refuses
    in a path, and the control characters. *)
Definition notInKey (c : ascii) : bool :=
  match c with
  | "/" | "." | "$" | "#" | "[" | "]" => true
  | _ => (nat_of_ascii c <? 32)%nat || (nat_of_ascii c =? 127)%nat
  end%char.

(** The identifier is one key of the database: not empty, of 768 characters
    at most, free of the characters above. *)
Definition databaseKey (id : string) : bool :=
  negb (bool_decide (id = EmptyString))
  && (Str.len id <=? 768)%nat
  && negb (anyChar notInKey id).

(** The item identifier that the push handler reads in a request, if it
    reads one, is a key of the database. *)
Definition namesDatabaseKey (w : world) (req : Push.request) : bool :=
  match pushEvent w req with
  | Some (_, filePath) =>
      match parseIds filePath with
      | Some (_, Some orderItemId) => databaseKey orderItemId
      | _ => true
      end
  | None => true
  end.

(** The names that [createTempDir] and [downloadPdf] make for a key are within
    the limits of the file system: the directory name, one component of a
    path, has 255 characters at most, and the path of the downloaded file has
    fewer than 4096. *)
Definition nameFits (w : world) (filePath : string) : bool :=
  (Str.len (Str.replaceAllChar "." "_" (Str.replaceAllChar "/" "_" filePath))
   + 1 + Str.len (random w) <=? 255)%nat
  && (Str.len (pdfIn w filePath) <? 4096)%nat.

(** The same for the key that the push handler reads in a request, if it
    reads one. *)
Definition directoryFits (w : world) (req : Push.request) : bool :=
  match pushEvent w req with
  | Some (_, filePath) => nameFits w filePath
  | None => true
  end.

(** The world [calm] with another random number. *)
Definition calm_again : world :=
  World "/tmp" "0.7" (λ payload, Some (GcsEvent None (Some payload)))
        true true true true true true.

(** The calls of a list that post to the webhook. *)
Definition webhookCalls (cs : list call) : list call :=
  List.filter (λ c, match c with AxiosPost _ _ => true | _ => false end) cs.

(** * Properties *)

(** ** Strings *)

Lemma app_empty_l (s : string) : EmptyString +:+ s = s.
Proof. reflexivity. Qed.

Lemma app_cons (c : ascii) (s t : string) : String c s +:+ t = String c (s +:+ t).
Proof. reflexivity. Qed.

Lemma app_empty_r (s : string) : s +:+ EmptyString = s.
Proof. induction s as [|c s IH]; [done|]. by rewrite app_cons, IH. Qed.

Lemma app_assoc_str (s t u : string) : (s +:+ t) +:+ u = s +:+ t +:+ u.
Proof. induction s as [|c s IH]; [done|]. by rewrite !app_cons, IH. Qed.

Lemma len_app (s t : string) : Str.len (s +:+ t) = Str.len s + Str.len t.
Proof. induction s as [|c s IH]; [done|]. rewrite app_cons. simpl. by rewrite IH. Qed.

Lemma len_toLowerCase (s : string) : Str.len (Str.toLowerCase s) = Str.len s.
Proof. induction s as [|c s IH]; simpl; congruence. Qed.

Lemma toLowerCase_app (s t : string) :
  Str.toLowerCase (s +:+ t) = Str.toLowerCase s +:+ Str.toLowerCase t.
Proof. induction s as [|c s IH]; [done|]. rewrite app_cons. simpl. by rewrite IH, app_cons. Qed.

Lemma keep_skip (n : nat) (s : string) : Str.keep n s +:+ Str.skip n s = s.
Proof.
  revert s; induction n as [|n IH]; intros [|c s]; simpl; try done.
  by rewrite app_cons, IH.
Qed.

Lemma skip_toLowerCase (n : nat) (s : string) :
  Str.skip n (Str.toLowerCase s) = Str.toLowerCase (Str.skip n s).
Proof. revert s; induction n as [|n IH]; intros [|c s]; simpl; auto. Qed.

Lemma skip_app_len (s t : string) : Str.skip (Str.len s) (s +:+ t) = t.
Proof. induction s as [|c s IH]; [done|]. rewrite app_cons. by simpl. Qed.

(** A key passes the [.pdf] test exactly when it is a stem followed by four
    characters that read [.pdf] once lowered. *)
Lemma isPdf_split (s : string) :
  isPdf s = true ↔ ∃ stem ext, s = stem +:+ ext ∧ Str.toLowerCase ext = ".pdf".
Proof.
  unfold isPdf, Str.endsWith. rewrite andb_true_iff, bool_decide_eq_true.
  rewrite len_toLowerCase. split.
  - intros [Hle Hsuf]. exists (Str.keep (Str.len s - 4) s), (Str.skip (Str.len s - 4) s).
    split; [by rewrite keep_skip|]. by rewrite <- skip_toLowerCase.
  - intros (stem & ext & -> & Hext).
    assert (Str.len ext = 4) as Hlen.
    { rewrite <- len_toLowerCase, Hext. done. }
    rewrite len_app, Hlen. split; [apply Nat.leb_le; simpl; lia|].
    simpl Str.len. replace (Str.len stem + 4 - 4) with (Str.len stem) by lia.
    by rewrite toLowerCase_app, <- (len_toLowerCase stem), skip_app_len.
Qed.

(** ** The matcher *)

Lemma search_unfold (p : Regex.pattern) (before s : string) :
  Regex.search p before s =
  match Regex.run p [] s with
  | Some (caps, rest) => Some (before, caps, rest)
  | None =>
      match s with
      | EmptyString => None
      | String d s' => Regex.search p (before +:+ String d EmptyString) s'
      end
  end.
Proof. by destruct s. Qed.

(** Where [search] finds a match, the pattern matches after the skipped
    characters. *)
Lemma search_sound (p : Regex.pattern) (s before pre : string) caps rest :
  Regex.search p before s = Some (pre, caps, rest) →
  ∃ skipped tail, pre = before +:+ skipped ∧ s = skipped +:+ tail
                  ∧ Regex.run p [] tail = Some (caps, rest).
Proof.
  revert before. induction s as [|d s IH]; intros before; rewrite search_unfold.
  - destruct (Regex.run p [] EmptyString) as [[caps' rest']|] eqn:Hrun; [|done].
    intros [= <- <- <-]. exists EmptyString, EmptyString.
    by rewrite app_empty_r.
  - destruct (Regex.run p [] (String d s)) as [[caps' rest']|] eqn:Hrun.
    + intros [= <- <- <-]. exists EmptyString, (String d s).
      by rewrite app_empty_r.
    + intros (skipped & tail & -> & -> & Htail)%IH.
      exists (String d skipped), tail.
      by rewrite app_assoc_str, !app_cons.
Qed.

(** [search] finds a match whenever the pattern matches somewhere. *)
Lemma search_complete (p : Regex.pattern) (skipped tail before : string) caps rest :
  Regex.run p [] tail = Some (caps, rest) →
  is_Some (Regex.search p before (skipped +:+ tail)).
Proof.
  intros Htail. revert before.
  induction skipped as [|d skipped IH]; intros before; rewrite search_unfold.
  - rewrite app_empty_l, Htail. eauto.
  - rewrite app_cons.
    destruct (Regex.run p [] (String d (skipped +:+ tail))) as [[??]|]; eauto.
Qed.

(** *** The suffix pattern *)

Lemma run_pdfSuffix_exact (ext : string) :
  Str.toLowerCase ext = ".pdf" → Regex.run pdfSuffix [] ext = Some ([], EmptyString).
Proof.
  destruct ext as [|a [|b [|c [|d [|e rest]]]]]; simpl; try done.
  intros [= Ha Hb Hc Hd]. unfold Regex.accepts.
  rewrite Ha, Hb, Hc, Hd. reflexivity.
Qed.

Lemma run_pdfSuffix_len (s : string) caps rest :
  Regex.run pdfSuffix [] s = Some (caps, rest) → Str.len s = 4.
Proof.
  destruct s as [|a [|b [|c [|d [|e s]]]]]; simpl; try done;
    repeat case_match; done.
Qed.

Lemma search_pdfSuffix (stem ext before : string) :
  Str.toLowerCase ext = ".pdf" →
  Regex.search pdfSuffix before (stem +:+ ext) = Some (before +:+ stem, [], EmptyString).
Proof.
  intros Hext. revert before.
  induction stem as [|c stem IH]; intros before; rewrite search_unfold.
  - rewrite app_empty_l, (run_pdfSuffix_exact _ Hext). by rewrite app_empty_r.
  - rewrite app_cons.
    destruct (Regex.run pdfSuffix [] (String c (stem +:+ ext))) as [[caps rest]|] eqn:Hrun.
    + apply run_pdfSuffix_len in Hrun. simpl in Hrun. rewrite len_app in Hrun.
      assert (Str.len ext = 4) by (by rewrite <- len_toLowerCase, Hext). lia.
    + rewrite IH. by rewrite app_assoc_str, app_cons.
Qed.

(** The replacement of the suffix, on a key that has it. *)
Lemma toPngPath_split (stem ext : string) :
  Str.toLowerCase ext = ".pdf" → toPngPath (stem +:+ ext) = stem +:+ ".png".
Proof.
  intros Hext. unfold toPngPath, Regex.js_replace.
  rewrite (search_pdfSuffix _ _ _ Hext). by rewrite app_empty_l.
Qed.

(** *** The identifier pattern *)

Lemma plus_sound {R : Type} (a : Regex.atom) (k : string → string → option R)
    (s taken : string) (r : R) :
  Regex.plus a k taken s = Some r →
  ∃ g rest, s = g +:+ rest ∧ g ≠ EmptyString
            ∧ (∀ c, Str.has c g = true → Regex.accepts a c = true)
            ∧ k (taken +:+ g) rest = Some r.
Proof.
  revert taken. induction s as [|d s IH]; intros taken; simpl; [done|].
  destruct (Regex.accepts a d) eqn:Hd; [|done].
  destruct (Regex.plus a k (taken +:+ String d EmptyString) s) as [r'|] eqn:Hplus.
  - intros [= ->]. apply IH in Hplus as (g & rest & -> & Hg & Hall & Hk).
    exists (String d g), rest. split_and!; [done|done| |].
    + intros c. simpl. rewrite orb_true_iff, bool_decide_eq_true.
      intros [->|?]; auto.
    + by rewrite app_assoc_str in Hk.
  - intros Hk. exists (String d EmptyString), s. split_and!; [done|done| |done].
    intros c. simpl. rewrite orb_true_iff, bool_decide_eq_true.
    intros [->|?]; [done|done].
Qed.

(** A greedy [[^c]+] in front of a pattern that needs [c] next takes every
    character up to the first [c]. *)
Lemma plus_not_greedy {R : Type} (c : ascii) (k : string → string → option R)
    (g taken rest : string) :
  g ≠ EmptyString → Str.has c g = false →
  (∀ t d s', d ≠ c → k t (String d s') = None) →
  Regex.plus (Regex.Not c) k taken (g +:+ String c rest)
  = k (taken +:+ g) (String c rest).
Proof.
  intros Hg Hc Hk. revert taken Hg Hc.
  induction g as [|d g IH]; intros taken Hg Hc; [done|].
  simpl in Hc. apply orb_false_iff in Hc as [Hd Hc].
  apply bool_decide_eq_false in Hd.
  rewrite app_cons. simpl. rewrite (bool_decide_eq_false_2 _ Hd). simpl.
  destruct g as [|e g].
  - rewrite app_empty_l. simpl. by rewrite bool_decide_eq_true_2.
  - rewrite IH; [|done|done]. rewrite app_assoc_str, app_cons, app_empty_l.
    destruct (k (taken +:+ String d (String e g)) (String c rest)) eqn:Hres; [done|].
    simpl in Hc. apply orb_false_iff in Hc as [He _].
    apply bool_decide_eq_false in He. rewrite app_cons. by apply Hk.
Qed.

Lemma not_accepts_has (c : ascii) (g : string) :
  (∀ d, Str.has d g = true → Regex.accepts (Regex.Not c) d = true) →
  Str.has c g = false.
Proof.
  intros Hall. destruct (Str.has c g) eqn:Hc; [|done].
  apply Hall in Hc. simpl in Hc. by rewrite bool_decide_eq_true_2 in Hc.
Qed.

Lemma run_idPattern_sound (s : string) caps rest :
  Regex.run idPattern [] s = Some (caps, rest) →
  ∃ o i, caps = [o; i] ∧ idsAt s EmptyString o i rest.
Proof.
  destruct s as [|d s]; simpl; [done|].
  case_bool_decide as Hd; [subst d|done]. simpl.
  intros (o & s1 & -> & Ho & Hoall & Hk)%plus_sound.
  destruct s1 as [|d1 [|d2 s2]]; simpl in Hk; try done.
  { by case_bool_decide. }
  case_bool_decide as Hd1; [subst d1|done].
  case_bool_decide as Hd2; [subst d2|done]. simpl in Hk.
  apply plus_sound in Hk as (i & s3 & -> & Hi & Hiall & Hk).
  destruct s3 as [|d3 s3]; simpl in Hk; [done|].
  case_bool_decide as Hd3; [subst d3|done].
  injection Hk as <- <-. exists o, i. split; [done|].
  unfold idsAt. split_and!; try done; eauto using not_accepts_has.
Qed.

Lemma run_idPattern_complete (o i rest : string) :
  o ≠ EmptyString → i ≠ EmptyString →
  Str.has ")" o = false → Str.has ")" i = false →
  Regex.run idPattern [] ("(" +:+ o +:+ ")(" +:+ i +:+ ")" +:+ rest)
  = Some ([o; i], rest).
Proof.
  intros Ho Hi Hco Hci. rewrite app_cons, app_empty_l. simpl.
  rewrite (app_cons ")" _ _), (app_cons "(" _ _), app_empty_l.
  rewrite plus_not_greedy; [|done|done|].
  - simpl. rewrite (app_cons ")" _ _), app_empty_l.
    rewrite plus_not_greedy; [done|done|done|].
    intros t d s' Hd. simpl. by rewrite bool_decide_eq_false_2.
  - intros t d s' Hd. simpl. by rewrite bool_decide_eq_false_2.
Qed.

Lemma parseIds_some (key : string) r :
  parseIds key = Some r →
  ∃ pre o i post, r = (Some o, Some i) ∧ idsAt key pre o i post.
Proof.
  unfold parseIds, Regex.js_match.
  destruct (Regex.search idPattern EmptyString key) as [[[pre caps] rest]|] eqn:Hs; [|done].
  intros [= <-].
  apply search_sound in Hs as (skipped & tail & -> & -> & Hrun).
  apply run_idPattern_sound in Hrun as (o & i & -> & Hids & Ho & Hi & Hco & Hci).
  exists skipped, o, i, rest. split; [done|].
  unfold idsAt. rewrite Hids. done.
Qed.

Lemma parseIds_none (key : string) :
  parseIds key = None ↔ ¬ ∃ pre o i post, idsAt key pre o i post.
Proof.
  split.
  - intros Hnone (pre & o & i & post & -> & Ho & Hi & Hco & Hci).
    pose proof (run_idPattern_complete o i post Ho Hi Hco Hci) as Hrun.
    destruct (search_complete idPattern pre _ EmptyString _ _ Hrun) as [x Hx].
    unfold parseIds, Regex.js_match in Hnone. rewrite Hx in Hnone.
    by destruct x as [[??]?].
  - intros Hno. destruct (parseIds key) as [r|] eqn:Hp; [|done].
    apply parseIds_some in Hp as (pre & o & i & post & _ & Hids).
    destruct Hno; eauto.
Qed.

(** ** The handlers *)


(** ** The handlers *)

(** Unfolds the steps of a handler down to functions on the state. *)
Ltac steps :=
  unfold Push.createTempDir, Push.downloadPdf, Push.convertPdfToImage,
    Push.uploadImage, Push.deleteDir, Push.trackOrder, Push.notifyIfComplete,
    Direct.createTempDir, Direct.downloadPdf, Direct.convertPdfToImage,
    Direct.uploadImage, Direct.deleteDir,
    mkdirSync, rimrafSync, storageDownload, storageUpload, gsExec,
    orderItemUpdate, orderItemsQuery, axiosPost,
    record_call, settle, must, tryCatch, bind, ret, throw.

(** The handler on a request that carries a key. *)
Lemma attempt_event (w : world) (req : Push.request) (bucketName filePath : string)
    (st : state) :
  pushEvent w req = Some (bucketName, filePath) →
  Push.attempt w req st =
    (if negb (isPdf filePath) then ret (Push.StatusSend 200 "Not a PDF, ignoring.")
    else
      match parseIds filePath with
      | None => ret (Push.StatusSend 400 "Invalid file name format.")
      | Some (orderId, orderItemId) =>
          let* tempDir := Push.createTempDir w filePath in
          let* localPdfPath := Push.downloadPdf w bucketName filePath tempDir in
          let* localPngPath := Push.convertPdfToImage w localPdfPath in
          let newFilePath := toPngPath filePath in
          Push.uploadImage w localPngPath Push.DESTINATION_BUCKET newFilePath ;;;
          Push.trackOrder w orderId orderItemId ;;;
          Push.deleteDir tempDir ;;;
          ret (Push.StatusSend 200 ("Converted PDF to PNG for file: " +:+ filePath))
      end) st.
Proof.
  unfold pushEvent, Push.attempt.
  destruct (Push.messageData req) as [payload|]; [|done].
  destruct (decodeEvent w payload) as [ev|] eqn:Hev; [|done].
  destruct (ev_name ev) as [n|] eqn:Hn; [|done].
  intros [= <- <-]. unfold bind at 1, must at 1, ret at 1.
  unfold bind at 1. rewrite Hn. reflexivity.
Qed.

(** The handler on a request that carries no key. *)
Lemma handler_no_event (w : world) (req : Push.request) (st : state) :
  pushEvent w req = None →
  Push.handler w req st =
    (Ok (Push.SendStatus (match Push.messageData req with Some _ => 200 | None => 400 end)), st).
Proof.
  unfold pushEvent, Push.handler, Push.attempt.
  destruct (Push.messageData req) as [payload|]; [|done].
  unfold tryCatch, bind, must, throw, ret.
  destruct (decodeEvent w payload) as [ev|]; [|done].
  destruct (ev_name ev) as [n|]; done.
Qed.

Lemma truthyStr_some (s : string) : s ≠ EmptyString → truthyStr (Some s) = true.
Proof. intros Hs. simpl. by rewrite bool_decide_eq_false_2. Qed.

(** ** C4 *)

(** C4. An event whose key does not end in [.pdf], whatever the case of its
    letters, leaves either handler at once: the state is as it was, so no
    directory is made and no download, conversion or upload is issued; the
    push endpoint answers 200. *)
Theorem non_pdf_ignored (w : world) (st : state) (req : Push.request)
    (object : Direct.storageObject) (bucketName filePath : string) :
  isPdf filePath = false →
  pushEvent w req = Some (bucketName, filePath) →
  Direct.name object = filePath →
  Push.handler w req st = (Ok (Push.StatusSend 200 "Not a PDF, ignoring."), st)
  ∧ Direct.createImage w object st = (Ok tt, st).
Proof.
  intros Hpdf Hev Hname. split.
  - unfold Push.handler, tryCatch. rewrite (attempt_event _ _ _ _ _ Hev), Hpdf. done.
  - unfold Direct.createImage. rewrite Hname, Hpdf. done.
Qed.

Lemma non_pdf_ignored_witness :
  Push.handler calm (push_of "notes/readme.txt") empty_state
    = (Ok (Push.StatusSend 200 "Not a PDF, ignoring."), empty_state)
  ∧ Direct.createImage calm (Direct.StorageObject "pdf-to-png" "notes/readme.txt") empty_state
    = (Ok tt, empty_state).
Proof.
  apply (non_pdf_ignored calm empty_state (push_of "notes/readme.txt")
           (Direct.StorageObject "pdf-to-png" "notes/readme.txt")
           "pdf-to-png" "notes/readme.txt"); reflexivity.
Defined.

(** ** The course of a handling *)

Lemma parseIds_truthy (key : string) orderId orderItemId :
  parseIds key = Some (orderId, orderItemId) →
  ∃ o i, orderId = Some o ∧ orderItemId = Some i
         ∧ o ≠ EmptyString ∧ i ≠ EmptyString.
Proof.
  intros (pre & o & i & post & [= -> ->] & _ & Ho & Hi & _)%parseIds_some.
  eauto 10.
Qed.

(** The query and the webhook: the result and the state do not depend on
    what the webhook answers. *)
Lemma notifyIfComplete_run (w : world) (orderId : string) (st : state) :
  Push.notifyIfComplete w orderId st =
    (if query_ok w then Ok tt else Thrown,
     State (dirs st) (objects st) (orderItems st)
           (calls st ++ DbQuery "order" (JStr orderId)
              :: (if query_ok w && completionCheck (orderItems st) orderId
                  then [AxiosPost Push.WEBHOOK_URL orderId] else []))).
Proof.
  unfold completionCheck. steps. simpl.
  destruct (query_ok w); simpl; [|done].
  destruct (snapshotVal _) as [items|]; [|done].
  destruct (Push.allExtracted items); [|done].
  simpl. rewrite <- app_assoc. by destruct (post_ok w).
Qed.

(** The push handler on a [.pdf] key that holds identifiers, the directory
    being free. *)
Lemma push_outcome (w : world) (req : Push.request) (st : state)
    (bucketName filePath o i : string) :
  pushEvent w req = Some (bucketName, filePath) →
  isPdf filePath = true →
  parseIds filePath = Some (Some o, Some i) →
  workspace w filePath ∉ dirs st →
  Push.handler w req st =
    (Ok (if tracked w
         then Push.StatusSend 200 ("Converted PDF to PNG for file: " +:+ filePath)
         else Push.SendStatus 200),
     State (if tracked w then ({[workspace w filePath]} ∪ dirs st) ∖ {[workspace w filePath]}
            else {[workspace w filePath]} ∪ dirs st)
           (if transferred w
            then {[(Push.DESTINATION_BUCKET, toPngPath filePath)]} ∪ objects st
            else objects st)
           (if transferred w && update_ok w
            then dbUpdate i flagExtracted (orderItems st) else orderItems st)
           (calls st ++ pushCalls w bucketName filePath o i (orderItems st))).
Proof.
  intros Hev Hpdf Hids Hfresh.
  destruct (parseIds_truthy _ _ _ Hids) as (o' & i' & [= <-] & [= <-] & Ho & Hi).
  unfold Push.handler, tryCatch at 1.
  rewrite (attempt_event _ _ _ _ _ Hev), Hpdf, Hids. simpl negb. cbv iota.
  unfold Push.trackOrder. rewrite !truthyStr_some by done. simpl andb. cbv iota.
  unfold bind at 1.
  unfold Push.createTempDir, mkdirSync, record_call, bind, ret. simpl.
  fold (workspace w filePath).
  rewrite bool_decide_eq_false_2 by done.
  unfold tracked, transferred, pushCalls, pdfIn.
  unfold Push.downloadPdf, storageDownload, record_call, settle, bind, ret, throw. simpl.
  destruct (download_ok w); simpl; [|by rewrite <- app_assoc].
  unfold Push.convertPdfToImage, gsExec, record_call, settle, bind, ret, throw. simpl.
  destruct (gs_ok w); simpl; [|by rewrite <- !app_assoc].
  unfold Push.uploadImage, storageUpload, record_call, settle, bind, ret, throw. simpl.
  destruct (upload_ok w); simpl; [|by rewrite <- !app_assoc].
  unfold orderItemUpdate, record_call, settle, bind, ret, throw. simpl.
  destruct (update_ok w); simpl; [|by rewrite <- !app_assoc].
  rewrite notifyIfComplete_run. simpl.
  destruct (query_ok w); simpl; [|by rewrite <- !app_assoc].
  unfold Push.deleteDir, rimrafSync, record_call, bind, ret. simpl.
  rewrite <- !app_assoc. simpl.
  by destruct (completionCheck _ _).
Qed.

(** The push handler when the directory is taken: [mkdirSync] throws. *)
Lemma push_dir_taken (w : world) (req : Push.request) (st : state)
    (bucketName filePath : string) ids :
  pushEvent w req = Some (bucketName, filePath) →
  isPdf filePath = true →
  parseIds filePath = Some ids →
  workspace w filePath ∈ dirs st →
  Push.handler w req st =
    (Ok (Push.SendStatus 200),
     State (dirs st) (objects st) (orderItems st)
           (calls st ++ [MkdirSync (workspace w filePath)])).
Proof.
  intros Hev Hpdf Hids Htaken. destruct ids as [orderId orderItemId].
  unfold Push.handler, tryCatch at 1.
  rewrite (attempt_event _ _ _ _ _ Hev), Hpdf, Hids. simpl negb. cbv iota.
  unfold bind at 1.
  unfold Push.createTempDir, mkdirSync, record_call, bind, ret. simpl.
  fold (workspace w filePath).
  by rewrite bool_decide_eq_true_2.
Qed.

(** The push handler on a [.pdf] key without identifiers. *)
Lemma push_bad_name (w : world) (req : Push.request) (st : state)
    (bucketName filePath : string) :
  pushEvent w req = Some (bucketName, filePath) →
  isPdf filePath = true →
  parseIds filePath = None →
  Push.handler w req st = (Ok (Push.StatusSend 400 "Invalid file name format."), st).
Proof.
  intros Hev Hpdf Hids. unfold Push.handler, tryCatch.
  by rewrite (attempt_event _ _ _ _ _ Hev), Hpdf, Hids.
Qed.

Lemma push_non_pdf (w : world) (req : Push.request) (st : state)
    (bucketName filePath : string) :
  pushEvent w req = Some (bucketName, filePath) →
  isPdf filePath = false →
  Push.handler w req st = (Ok (Push.StatusSend 200 "Not a PDF, ignoring."), st).
Proof.
  intros Hev Hpdf. unfold Push.handler, tryCatch.
  by rewrite (attempt_event _ _ _ _ _ Hev), Hpdf.
Qed.

(** The storage-triggered handler on a [.pdf] key, the directory being free. *)
Lemma direct_outcome (w : world) (object : Direct.storageObject) (st : state) :
  isPdf (Direct.name object) = true →
  workspace w (Direct.name object) ∉ dirs st →
  Direct.createImage w object st =
    (if transferred w then Ok tt else Thrown,
     State (if transferred w
            then ({[workspace w (Direct.name object)]} ∪ dirs st)
                 ∖ {[workspace w (Direct.name object)]}
            else {[workspace w (Direct.name object)]} ∪ dirs st)
           (if transferred w
            then {[(Direct.bucket object, toPngPath (Direct.name object))]} ∪ objects st
            else objects st)
           (orderItems st)
           (calls st ++ directCalls w (Direct.bucket object) (Direct.name object))).
Proof.
  intros Hpdf Hfresh. unfold Direct.createImage. rewrite Hpdf. simpl negb. cbv iota.
  unfold bind at 1.
  unfold Direct.createTempDir, mkdirSync, record_call, bind, ret. simpl.
  fold (workspace w (Direct.name object)).
  rewrite bool_decide_eq_false_2 by done.
  unfold transferred, directCalls, pdfIn.
  unfold Direct.downloadPdf, storageDownload, record_call, settle, bind, ret, throw. simpl.
  destruct (download_ok w); simpl; [|by rewrite <- app_assoc].
  unfold Direct.convertPdfToImage, gsExec, record_call, settle, bind, ret, throw. simpl.
  destruct (gs_ok w); simpl; [|by rewrite <- !app_assoc].
  unfold Direct.uploadImage, storageUpload, record_call, settle, bind, ret, throw. simpl.
  destruct (upload_ok w); simpl; [|by rewrite <- !app_assoc].
  unfold Direct.deleteDir, rimrafSync, record_call, bind, ret. simpl.
  by rewrite <- !app_assoc.
Qed.

Lemma direct_dir_taken (w : world) (object : Direct.storageObject) (st : state) :
  isPdf (Direct.name object) = true →
  workspace w (Direct.name object) ∈ dirs st →
  Direct.createImage w object st =
    (Thrown,
     State (dirs st) (objects st) (orderItems st)
           (calls st ++ [MkdirSync (workspace w (Direct.name object))])).
Proof.
  intros Hpdf Htaken. unfold Direct.createImage. rewrite Hpdf. simpl negb. cbv iota.
  unfold bind at 1.
  unfold Direct.createTempDir, mkdirSync, record_call, bind, ret. simpl.
  fold (workspace w (Direct.name object)).
  by rewrite bool_decide_eq_true_2.
Qed.

Lemma direct_non_pdf (w : world) (object : Direct.storageObject) (st : state) :
  isPdf (Direct.name object) = false →
  Direct.createImage w object st = (Ok tt, st).
Proof. intros Hpdf. unfold Direct.createImage. by rewrite Hpdf. Qed.

Lemma direct_store (w : world) (object : Direct.storageObject) (st : state) :
  orderItems (Direct.createImage w object st).2 = orderItems st.
Proof.
  destruct (isPdf (Direct.name object)) eqn:Hpdf;
    [|by rewrite (direct_non_pdf _ _ _ Hpdf)].
  destruct (decide (workspace w (Direct.name object) ∈ dirs st)) as [Htaken|Hfresh].
  - by rewrite (direct_dir_taken _ _ _ Hpdf Htaken).
  - by rewrite (direct_outcome _ _ _ Hpdf Hfresh).
Qed.

(** ** C1 *)

(** C1, as amended. In both handlers the directory made for an event is
    gone when the handler finishes exactly when every later step that can
    throw has succeeded: download, conversion and upload, and in the push
    endpoint the update and the query of the store as well (a failure of the
    webhook is caught and does not count). When one of these steps fails the
    handler finishes with the directory still there. *)
Theorem workspace_deleted_iff_no_failure (w : world) (st : state)
    (req : Push.request) (bucketName filePath o i : string)
    (object : Direct.storageObject) :
  pushEvent w req = Some (bucketName, filePath) →
  isPdf filePath = true →
  parseIds filePath = Some (Some o, Some i) →
  workspace w filePath ∉ dirs st →
  isPdf (Direct.name object) = true →
  workspace w (Direct.name object) ∉ dirs st →
  (MkdirSync (workspace w filePath) ∈ calls (Push.handler w req st).2
   ∧ (workspace w filePath ∉ dirs (Push.handler w req st).2 ↔ tracked w = true))
  ∧ (MkdirSync (workspace w (Direct.name object)) ∈ calls (Direct.createImage w object st).2
     ∧ (workspace w (Direct.name object) ∉ dirs (Direct.createImage w object st).2
        ↔ transferred w = true)).
Proof.
  intros Hev Hpdf Hids Hfresh Hpdf' Hfresh'.
  rewrite (push_outcome _ _ _ _ _ _ _ Hev Hpdf Hids Hfresh).
  rewrite (direct_outcome _ _ _ Hpdf' Hfresh'). simpl.
  split; (split; [unfold pushCalls, directCalls; set_solver|]).
  - destruct (tracked w); set_solver.
  - destruct (transferred w); set_solver.
Qed.

Lemma workspace_deleted_iff_no_failure_witness :
  (MkdirSync (workspace calm "case(O100)(I1).pdf")
     ∈ calls (Push.handler calm (push_of "case(O100)(I1).pdf") empty_state).2
   ∧ (workspace calm "case(O100)(I1).pdf"
        ∉ dirs (Push.handler calm (push_of "case(O100)(I1).pdf") empty_state).2
      ↔ tracked calm = true))
  ∧ (MkdirSync (workspace calm "case(O100)(I1).pdf")
       ∈ calls (Direct.createImage calm
                  (Direct.StorageObject "pdf-to-png" "case(O100)(I1).pdf") empty_state).2
     ∧ (workspace calm "case(O100)(I1).pdf"
          ∉ dirs (Direct.createImage calm
                    (Direct.StorageObject "pdf-to-png" "case(O100)(I1).pdf") empty_state).2
        ↔ transferred calm = true)).
Proof.
  apply (workspace_deleted_iff_no_failure calm empty_state
           (push_of "case(O100)(I1).pdf") "pdf-to-png" "case(O100)(I1).pdf" "O100" "I1"
           (Direct.StorageObject "pdf-to-png" "case(O100)(I1).pdf"));
    try reflexivity; vm_compute; done.
Defined.

(** C1, as stated, fails: when the download fails, either handler finishes
    with the directory it made still in place, and without a call that
    deletes it. *)
Lemma workspace_left_after_failed_download :
  let d := "/tmp/case(O100)(I1)_pdf_0.5" in
  let pushed := Push.handler noDownload (push_of "case(O100)(I1).pdf") empty_state in
  let direct := Direct.createImage noDownload
                  (Direct.StorageObject "pdf-to-png" "case(O100)(I1).pdf") empty_state in
  (pushed.1 = Ok (Push.SendStatus 200)
   ∧ calls pushed.2
     = [MkdirSync d;
        StorageDownload "pdf-to-png" "case(O100)(I1).pdf"
                        "/tmp/case(O100)(I1)_pdf_0.5/case(O100)(I1).pdf"]
   ∧ d ∈ dirs pushed.2)
  ∧ (direct.1 = Thrown
     ∧ calls direct.2
       = [MkdirSync d;
          StorageDownload "pdf-to-png" "case(O100)(I1).pdf"
                          "/tmp/case(O100)(I1)_pdf_0.5/case(O100)(I1).pdf"]
     ∧ d ∈ dirs direct.2).
Proof. vm_compute. done. Qed.

(** ** C3 *)

Lemma pushEvent_has_data (w : world) (req : Push.request) ev :
  pushEvent w req = Some ev → Push.messageData req ≠ None.
Proof. unfold pushEvent. by destruct (Push.messageData req). Qed.

(** C3, as amended. The push endpoint always answers, with 400 or 200. It
    answers 400 exactly when the request has no message data, or when the
    key it carries ends in [.pdf] and holds no pair of identifiers; it
    answers 200 in every other case: a key that is not a [.pdf] (whether or
    not it holds identifiers), a payload that cannot be decoded, and any
    failure of a later step. A request without message data leaves the state
    as it was: nothing is created, transferred, converted, written or
    notified. *)
Theorem push_status (w : world) (req : Push.request) (st : state) :
  ∃ resp,
    (Push.handler w req st).1 = Ok resp
    ∧ (Push.statusCode resp = 400%Z ∨ Push.statusCode resp = 200%Z)
    ∧ (Push.statusCode resp = 400%Z ↔
         Push.messageData req = None
         ∨ ∃ bucketName filePath,
             pushEvent w req = Some (bucketName, filePath)
             ∧ isPdf filePath = true ∧ parseIds filePath = None)
    ∧ (Push.messageData req = None → (Push.handler w req st).2 = st).
Proof.
  destruct (pushEvent w req) as [[bucketName filePath]|] eqn:Hev.
  - pose proof (pushEvent_has_data _ _ _ Hev) as Hdata.
    destruct (isPdf filePath) eqn:Hpdf.
    + destruct (parseIds filePath) as [[orderId orderItemId]|] eqn:Hids.
      * assert (∃ resp, (Push.handler w req st).1 = Ok resp
                        ∧ Push.statusCode resp = 200%Z) as (resp & Hresp & Hcode).
        { destruct (parseIds_truthy _ _ _ Hids) as (o & i & -> & -> & _).
          destruct (decide (workspace w filePath ∈ dirs st)) as [Htaken|Hfresh].
          - rewrite (push_dir_taken _ _ _ _ _ _ Hev Hpdf Hids Htaken). eauto.
          - rewrite (push_outcome _ _ _ _ _ _ _ Hev Hpdf Hids Hfresh).
            destruct (tracked w); eauto. }
        exists resp. split_and!; [done|by right| |done].
        rewrite Hcode. split; [done|].
        intros [?|(b & f & [= <- <-] & _ & ?)]; congruence.
      * rewrite (push_bad_name _ _ _ _ _ Hev Hpdf Hids).
        eexists. split_and!; [done|by left| |done].
        simpl. split; [|done]. intros _. right. eauto.
    + rewrite (push_non_pdf _ _ _ _ _ Hev Hpdf).
      eexists. split_and!; [done|by right| |done].
      simpl. split; [done|].
      intros [?|(b & f & [= <- <-] & ? & _)]; congruence.
  - rewrite (handler_no_event _ _ _ Hev).
    destruct (Push.messageData req) as [payload|] eqn:Hdata.
    + eexists. split_and!; [done|by right| |done].
      simpl. split; [done|]. intros [?|(b & f & ? & _)]; congruence.
    + eexists. split_and!; [done|by left| |done].
      simpl. split; [|done]. intros _. by left.
Qed.

(** C3, as stated, fails: a request that carries message data and a key that
    does not match the identifier pattern is answered 200 when the key is not
    a [.pdf]. *)
Lemma unmatched_key_answered_200 :
  Push.messageData (push_of "notes/readme.txt") = Some "notes/readme.txt"
  ∧ pushEvent calm (push_of "notes/readme.txt") = Some ("pdf-to-png", "notes/readme.txt")
  ∧ Regex.js_match idPattern "notes/readme.txt" = None
  ∧ (Push.handler calm (push_of "notes/readme.txt") empty_state).1
    = Ok (Push.StatusSend 200 "Not a PDF, ignoring.")
  ∧ Push.statusCode (Push.StatusSend 200 "Not a PDF, ignoring.") ≠ 400%Z.
Proof. vm_compute. done. Qed.

(** ** C5 *)

Lemma upload_in_pushCalls (w : world) (b f o i : string) (db : store) l bk dest :
  StorageUpload l bk dest ∈ pushCalls w b f o i db →
  bk = Push.DESTINATION_BUCKET ∧ dest = toPngPath f.
Proof.
  unfold pushCalls.
  destruct (download_ok w), (gs_ok w), (upload_ok w), (update_ok w), (query_ok w),
    (completionCheck (dbUpdate i flagExtracted db) o); simpl;
    rewrite ?elem_of_cons, ?elem_of_nil; naive_solver.
Qed.

Lemma upload_in_directCalls (w : world) (b f : string) l bk dest :
  StorageUpload l bk dest ∈ directCalls w b f →
  bk = b ∧ dest = toPngPath f.
Proof.
  unfold directCalls.
  destruct (download_ok w), (gs_ok w), (upload_ok w); simpl;
    rewrite ?elem_of_cons, ?elem_of_nil; naive_solver.
Qed.

(** The calls a handler adds are the state's calls followed by new ones; an
    upload among the new ones goes to the [.png] key. *)
Lemma push_uploads (w : world) (req : Push.request) (st : state)
    (bucketName filePath : string) l bk dest :
  pushEvent w req = Some (bucketName, filePath) →
  StorageUpload l bk dest ∈ calls (Push.handler w req st).2 →
  StorageUpload l bk dest ∉ calls st →
  dest = toPngPath filePath.
Proof.
  intros Hev Hin Hnew.
  destruct (isPdf filePath) eqn:Hpdf;
    [|by rewrite (push_non_pdf _ _ _ _ _ Hev Hpdf) in Hin].
  destruct (parseIds filePath) as [[orderId orderItemId]|] eqn:Hids;
    [|by rewrite (push_bad_name _ _ _ _ _ Hev Hpdf Hids) in Hin].
  destruct (parseIds_truthy _ _ _ Hids) as (o & i & -> & -> & _).
  destruct (decide (workspace w filePath ∈ dirs st)) as [Htaken|Hfresh].
  - rewrite (push_dir_taken _ _ _ _ _ _ Hev Hpdf Hids Htaken) in Hin. simpl in Hin.
    apply elem_of_app in Hin as [?|Hin]; [done|].
    by apply list_elem_of_singleton in Hin.
  - rewrite (push_outcome _ _ _ _ _ _ _ Hev Hpdf Hids Hfresh) in Hin. simpl in Hin.
    apply elem_of_app in Hin as [?|Hin]; [done|].
    by apply upload_in_pushCalls in Hin as [_ ->].
Qed.

Lemma direct_uploads (w : world) (object : Direct.storageObject) (st : state) l bk dest :
  StorageUpload l bk dest ∈ calls (Direct.createImage w object st).2 →
  StorageUpload l bk dest ∉ calls st →
  dest = toPngPath (Direct.name object).
Proof.
  intros Hin Hnew.
  destruct (isPdf (Direct.name object)) eqn:Hpdf;
    [|by rewrite (direct_non_pdf _ _ _ Hpdf) in Hin].
  destruct (decide (workspace w (Direct.name object) ∈ dirs st)) as [Htaken|Hfresh].
  - rewrite (direct_dir_taken _ _ _ Hpdf Htaken) in Hin. simpl in Hin.
    apply elem_of_app in Hin as [?|Hin]; [done|].
    by apply list_elem_of_singleton in Hin.
  - rewrite (direct_outcome _ _ _ Hpdf Hfresh) in Hin. simpl in Hin.
    apply elem_of_app in Hin as [?|Hin]; [done|].
    by apply upload_in_directCalls in Hin as [_ ->].
Qed.

(** C5. A key that ends in [.pdf], whatever the case of its letters, is a
    stem followed by that suffix, and every upload that either handler issues
    for it goes to the stem followed by [.png]: the suffix alone is replaced,
    all that precedes it (any directory prefix included) is kept. When the
    download and the conversion succeed the upload is issued. *)
Theorem upload_key_is_png_key (w : world) (st : state) (req : Push.request)
    (object : Direct.storageObject) (bucketName filePath : string) :
  pushEvent w req = Some (bucketName, filePath) →
  Direct.name object = filePath →
  isPdf filePath = true →
  ∃ stem ext,
    filePath = stem +:+ ext ∧ Str.toLowerCase ext = ".pdf"
    ∧ (∀ l bk dest,
         StorageUpload l bk dest ∉ calls st →
         StorageUpload l bk dest ∈ calls (Push.handler w req st).2
         ∨ StorageUpload l bk dest ∈ calls (Direct.createImage w object st).2 →
         dest = stem +:+ ".png")
    ∧ (workspace w filePath ∉ dirs st → download_ok w = true → gs_ok w = true →
       StorageUpload (toPngPath (pdfIn w filePath)) (Direct.bucket object) (stem +:+ ".png")
         ∈ calls (Direct.createImage w object st).2
       ∧ (is_Some (parseIds filePath) →
          StorageUpload (toPngPath (pdfIn w filePath)) Push.DESTINATION_BUCKET (stem +:+ ".png")
            ∈ calls (Push.handler w req st).2)).
Proof.
  intros Hev Hname Hpdf.
  destruct (proj1 (isPdf_split filePath) Hpdf) as (stem & ext & Hsplit & Hext).
  exists stem, ext. split_and!; [done|done| |].
  - intros l bk dest Hnew [Hin|Hin].
    + rewrite (push_uploads _ _ _ _ _ _ _ _ Hev Hin Hnew).
      rewrite Hsplit. by apply toPngPath_split.
    + rewrite (direct_uploads _ _ _ _ _ _ Hin Hnew), Hname.
      rewrite Hsplit. by apply toPngPath_split.
  - intros Hfresh Hdl Hgs.
    rewrite <- (toPngPath_split stem ext Hext), <- Hsplit. split.
    + rewrite direct_outcome by (by rewrite Hname). rewrite Hname. simpl.
      unfold directCalls. rewrite Hdl, Hgs. set_solver.
    + intros [[orderId orderItemId] Hids].
      destruct (parseIds_truthy _ _ _ Hids) as (o & i & -> & -> & _).
      rewrite (push_outcome _ _ _ _ _ _ _ Hev Hpdf Hids Hfresh). simpl.
      unfold pushCalls. rewrite Hdl, Hgs. set_solver.
Qed.

Lemma upload_key_is_png_key_witness :
  ∃ stem ext,
    "orders/2024/Case(O100)(I1).PDF" = stem +:+ ext ∧ Str.toLowerCase ext = ".pdf"
    ∧ (∀ l bk dest,
         StorageUpload l bk dest ∉ calls empty_state →
         StorageUpload l bk dest
           ∈ calls (Push.handler calm (push_of "orders/2024/Case(O100)(I1).PDF") empty_state).2
         ∨ StorageUpload l bk dest
             ∈ calls (Direct.createImage calm
                        (Direct.StorageObject "pdf-to-png" "orders/2024/Case(O100)(I1).PDF")
                        empty_state).2 →
         dest = stem +:+ ".png")
    ∧ (workspace calm "orders/2024/Case(O100)(I1).PDF" ∉ dirs empty_state →
       download_ok calm = true → gs_ok calm = true →
       StorageUpload (toPngPath (pdfIn calm "orders/2024/Case(O100)(I1).PDF"))
                     "pdf-to-png" (stem +:+ ".png")
         ∈ calls (Direct.createImage calm
                    (Direct.StorageObject "pdf-to-png" "orders/2024/Case(O100)(I1).PDF")
                    empty_state).2
       ∧ (is_Some (parseIds "orders/2024/Case(O100)(I1).PDF") →
          StorageUpload (toPngPath (pdfIn calm "orders/2024/Case(O100)(I1).PDF"))
                        Push.DESTINATION_BUCKET (stem +:+ ".png")
            ∈ calls (Push.handler calm (push_of "orders/2024/Case(O100)(I1).PDF")
                       empty_state).2)).
Proof.
  apply (upload_key_is_png_key calm empty_state
           (push_of "orders/2024/Case(O100)(I1).PDF")
           (Direct.StorageObject "pdf-to-png" "orders/2024/Case(O100)(I1).PDF")
           "pdf-to-png" "orders/2024/Case(O100)(I1).PDF"); reflexivity.
Defined.

Example upload_key_sample :
  calls (Push.handler calm (push_of "orders/2024/Case(O100)(I1).PDF") empty_state).2
    !! 3%nat
  = Some (StorageUpload "/tmp/orders_2024_Case(O100)(I1)_PDF_0.5/Case(O100)(I1).png"
                        "pdf-to-png-output" "orders/2024/Case(O100)(I1).png").
Proof. vm_compute. done. Qed.

(** ** C6 *)

(** C6. The parsing of a key finds nothing exactly when the key holds nowhere
    an opening parenthesis, one or more characters other than [)], the two
    characters [)(], one or more characters other than [)], and a closing
    parenthesis; what it finds otherwise are the two groups of such an
    occurrence, as [orderId] and [orderItemId]. On the two keys of the
    specification it yields [ORD1] and [ITEM1], and nothing. *)
Theorem filename_parsing :
  (∀ key, parseIds key = None ↔ ¬ ∃ pre o i post, idsAt key pre o i post)
  ∧ (∀ key ids, parseIds key = Some ids →
       ∃ pre o i post, ids = (Some o, Some i) ∧ idsAt key pre o i post)
  ∧ parseIds "invoice(ORD1)(ITEM1).pdf" = Some (Some "ORD1", Some "ITEM1")
  ∧ parseIds "invoice.pdf" = None.
Proof.
  split_and!.
  - apply parseIds_none.
  - apply parseIds_some.
  - reflexivity.
  - reflexivity.
Qed.

(** ** C7 *)

Lemma tracked_true (w : world) :
  tracked w = true →
  download_ok w = true ∧ gs_ok w = true ∧ upload_ok w = true
  ∧ update_ok w = true ∧ query_ok w = true.
Proof. unfold tracked, transferred. rewrite !andb_true_iff. tauto. Qed.

(** C7. When the push endpoint reaches the webhook (every earlier step has
    succeeded and the completion check passes) and the webhook fails, the
    failure goes no further: the directory is deleted next, as the last call,
    the answer is the 200 of the successful path, and what was done before
    stays done: the uploaded object is in the destination bucket and the
    record carries [pngExtracted = true]. *)
Theorem webhook_failure_is_swallowed (w : world) (st : state) (req : Push.request)
    (bucketName filePath o i : string) :
  pushEvent w req = Some (bucketName, filePath) →
  isPdf filePath = true →
  parseIds filePath = Some (Some o, Some i) →
  workspace w filePath ∉ dirs st →
  tracked w = true →
  completionCheck (dbUpdate i flagExtracted (orderItems st)) o = true →
  post_ok w = false →
  (Push.handler w req st).1
    = Ok (Push.StatusSend 200 ("Converted PDF to PNG for file: " +:+ filePath))
  ∧ calls (Push.handler w req st).2
    = calls st ++
      [ MkdirSync (workspace w filePath);
        StorageDownload bucketName filePath (pdfIn w filePath);
        GsExec (GsJob true true "png256" (Some 72%Z)
                      (dquote +:+ toPngPath (pdfIn w filePath) +:+ dquote)
                      (dquote +:+ pdfIn w filePath +:+ dquote));
        StorageUpload (toPngPath (pdfIn w filePath)) Push.DESTINATION_BUCKET
                      (toPngPath filePath);
        DbUpdate i flagExtracted;
        DbQuery "order" (JStr o);
        AxiosPost Push.WEBHOOK_URL o;
        RimrafSync (workspace w filePath) ]
  ∧ (workspace w filePath ∉ dirs (Push.handler w req st).2)
  ∧ (Push.DESTINATION_BUCKET, toPngPath filePath) ∈ objects (Push.handler w req st).2
  ∧ orderItems (Push.handler w req st).2 = dbUpdate i flagExtracted (orderItems st)
  ∧ field (orderItems (Push.handler w req st).2) i "pngExtracted" = Some (JBool true)
  ∧ Push.handler w req st = Push.handler (withWebhook true w) req st.
Proof.
  intros Hev Hpdf Hids Hfresh Hok Hcheck Hpost.
  assert (Push.handler w req st = Push.handler (withWebhook true w) req st) as Hsame.
  { rewrite (push_outcome (withWebhook true w) req st bucketName filePath o i
               Hev Hpdf Hids Hfresh).
    by rewrite (push_outcome _ _ _ _ _ _ _ Hev Hpdf Hids Hfresh). }
  rewrite <- Hsame.
  rewrite (push_outcome _ _ _ _ _ _ _ Hev Hpdf Hids Hfresh).
  unfold pushCalls. rewrite Hcheck.
  destruct (tracked_true _ Hok) as (Hdl & Hgs & Hup & Hupd & Hqry).
  unfold transferred. rewrite Hok, Hdl, Hgs, Hup, Hupd, Hqry. simpl.
  split_and!; [done|done|set_solver|set_solver|done| |done].
  unfold field, dbUpdate. rewrite lookup_insert_eq. simpl.
  by rewrite lookup_union_l', lookup_insert_eq by (rewrite lookup_insert_eq; eauto).
Qed.

Lemma webhook_failure_is_swallowed_witness :
  (Push.handler noWebhook (push_of "case(O100)(I1).pdf") sole_state).1
    = Ok (Push.StatusSend 200 ("Converted PDF to PNG for file: " +:+ "case(O100)(I1).pdf"))
  ∧ calls (Push.handler noWebhook (push_of "case(O100)(I1).pdf") sole_state).2
    = calls sole_state ++
      [ MkdirSync (workspace noWebhook "case(O100)(I1).pdf");
        StorageDownload "pdf-to-png" "case(O100)(I1).pdf"
                        (pdfIn noWebhook "case(O100)(I1).pdf");
        GsExec (GsJob true true "png256" (Some 72%Z)
                      (dquote +:+ toPngPath (pdfIn noWebhook "case(O100)(I1).pdf") +:+ dquote)
                      (dquote +:+ pdfIn noWebhook "case(O100)(I1).pdf" +:+ dquote));
        StorageUpload (toPngPath (pdfIn noWebhook "case(O100)(I1).pdf"))
                      Push.DESTINATION_BUCKET (toPngPath "case(O100)(I1).pdf");
        DbUpdate "I1" flagExtracted;
        DbQuery "order" (JStr "O100");
        AxiosPost Push.WEBHOOK_URL "O100";
        RimrafSync (workspace noWebhook "case(O100)(I1).pdf") ]
  ∧ (workspace noWebhook "case(O100)(I1).pdf"
       ∉ dirs (Push.handler noWebhook (push_of "case(O100)(I1).pdf") sole_state).2)
  ∧ (Push.DESTINATION_BUCKET, toPngPath "case(O100)(I1).pdf")
      ∈ objects (Push.handler noWebhook (push_of "case(O100)(I1).pdf") sole_state).2
  ∧ orderItems (Push.handler noWebhook (push_of "case(O100)(I1).pdf") sole_state).2
    = dbUpdate "I1" flagExtracted (orderItems sole_state)
  ∧ field (orderItems (Push.handler noWebhook (push_of "case(O100)(I1).pdf") sole_state).2)
          "I1" "pngExtracted"
    = Some (JBool true)
  ∧ Push.handler noWebhook (push_of "case(O100)(I1).pdf") sole_state
    = Push.handler (withWebhook true noWebhook) (push_of "case(O100)(I1).pdf") sole_state.
Proof.
  apply (webhook_failure_is_swallowed noWebhook sole_state
           (push_of "case(O100)(I1).pdf") "pdf-to-png" "case(O100)(I1).pdf" "O100" "I1");
    try reflexivity; vm_compute; done.
Defined.

(** ** C9 *)

Lemma dbUpdate_dom (id : string) fields (db : store) :
  dom (dbUpdate id fields db) = {[id]} ∪ dom db.
Proof. unfold dbUpdate. by rewrite dom_insert_L. Qed.

Lemma field_dbUpdate_flag (id : string) (db : store) :
  field (dbUpdate id flagExtracted db) id "pngExtracted" = Some (JBool true).
Proof.
  unfold field, dbUpdate. rewrite lookup_insert_eq. simpl.
  by rewrite lookup_union_l', lookup_insert_eq by (rewrite lookup_insert_eq; eauto).
Qed.

Lemma field_dbUpdate_other (id id' fld : string) (db : store) :
  id' ≠ id ∨ fld ≠ "pngExtracted" →
  field (dbUpdate id flagExtracted db) id' fld = field db id' fld.
Proof.
  intros Hother. unfold field, dbUpdate.
  destruct (decide (id' = id)) as [->|Hid].
  - destruct Hother as [?|Hfld]; [done|].
    rewrite lookup_insert_eq. simpl.
    rewrite lookup_union_r by (by rewrite lookup_insert_ne).
    by destruct (db !! id).
  - by rewrite lookup_insert_ne.
Qed.

Lemma dbUpdate_fresh (id : string) (db : store) :
  db !! id = None →
  dbUpdate id flagExtracted db !! id = Some {[ "pngExtracted" := JBool true ]}.
Proof.
  intros Hnone. unfold dbUpdate. rewrite lookup_insert_eq, Hnone. simpl.
  by rewrite (right_id_L ∅ (∪)).
Qed.

Lemma update_in_pushCalls (w : world) (b f o i : string) (db : store) id fields :
  DbUpdate id fields ∈ pushCalls w b f o i db → id = i ∧ fields = flagExtracted.
Proof.
  unfold pushCalls.
  destruct (download_ok w), (gs_ok w), (upload_ok w), (update_ok w), (query_ok w),
    (completionCheck (dbUpdate i flagExtracted db) o); simpl;
    rewrite ?elem_of_cons, ?elem_of_nil; naive_solver.
Qed.

(** What the push handler does to the store and which updates it issues: the
    store is as it was, or it is the store after the update of the record
    named by the key; the updates issued are that one. *)
Lemma push_store (w : world) (req : Push.request) (st : state) :
  (orderItems (Push.handler w req st).2 = orderItems st
   ∧ ∀ id fields, DbUpdate id fields ∈ calls (Push.handler w req st).2 →
                  DbUpdate id fields ∈ calls st)
  ∨ ∃ bucketName filePath o i,
      pushEvent w req = Some (bucketName, filePath)
      ∧ isPdf filePath = true
      ∧ parseIds filePath = Some (Some o, Some i)
      ∧ (orderItems (Push.handler w req st).2 = orderItems st
         ∨ orderItems (Push.handler w req st).2 = dbUpdate i flagExtracted (orderItems st))
      ∧ ∀ id fields, DbUpdate id fields ∈ calls (Push.handler w req st).2 →
                     DbUpdate id fields ∈ calls st ∨ id = i ∧ fields = flagExtracted.
Proof.
  destruct (pushEvent w req) as [[bucketName filePath]|] eqn:Hev;
    [|left; by rewrite (handler_no_event _ _ _ Hev)].
  destruct (isPdf filePath) eqn:Hpdf;
    [|left; by rewrite (push_non_pdf _ _ _ _ _ Hev Hpdf)].
  destruct (parseIds filePath) as [[orderId orderItemId]|] eqn:Hids;
    [|left; by rewrite (push_bad_name _ _ _ _ _ Hev Hpdf Hids)].
  destruct (parseIds_truthy _ _ _ Hids) as (o & i & -> & -> & _).
  destruct (decide (workspace w filePath ∈ dirs st)) as [Htaken|Hfresh].
  - left. rewrite (push_dir_taken _ _ _ _ _ _ Hev Hpdf Hids Htaken). simpl.
    split; [done|]. intros id fields [?|Hin]%elem_of_app; [done|].
    by apply list_elem_of_singleton in Hin.
  - right. exists bucketName, filePath, o, i. split_and!; [done|done|done| |].
    + rewrite (push_outcome _ _ _ _ _ _ _ Hev Hpdf Hids Hfresh). simpl.
      destruct (transferred w && update_ok w); auto.
    + rewrite (push_outcome _ _ _ _ _ _ _ Hev Hpdf Hids Hfresh). simpl.
      intros id fields [?|Hin]%elem_of_app; [by left|right].
      by apply update_in_pushCalls in Hin.
Qed.

(** C9, as amended. When the item identifier of the key is a key of the
    database (not empty, 768 characters at most, without slash, dot, dollar,
    hash, bracket or control character), the push handler writes nothing on
    the order-item store but the field [pngExtracted], which it sets to [true]
    on the record named by that identifier: every update call it issues is
    that one, no record is deleted, no other record and no other field
    changes. A record is created only when the store holds none under that
    id: the update then brings one into being, holding that field alone. The
    storage-triggered handler leaves the store as it was. *)
Theorem store_write_is_the_flag (w : world) (req : Push.request) (st : state) :
  namesDatabaseKey w req = true →
  let db := orderItems st in
  let db' := orderItems (Push.handler w req st).2 in
  let named id :=
    ∃ bucketName filePath o,
      pushEvent w req = Some (bucketName, filePath)
      ∧ parseIds filePath = Some (Some o, Some id)
      ∧ databaseKey id = true in
  (∀ id fields,
     DbUpdate id fields ∈ calls (Push.handler w req st).2 →
     DbUpdate id fields ∉ calls st →
     named id ∧ fields = [("pngExtracted", JBool true)])
  ∧ dom db ⊆ dom db'
  ∧ (∀ id fld,
       field db' id fld ≠ field db id fld →
       named id ∧ fld = "pngExtracted" ∧ field db' id fld = Some (JBool true))
  ∧ (∀ id,
       id ∈ dom db' → id ∉ dom db →
       named id ∧ db' !! id = Some {[ "pngExtracted" := JBool true ]})
  ∧ (∀ object, orderItems (Direct.createImage w object st).2 = db).
Proof.
  intros Hkey db db' named. subst db db'.
  destruct (push_store w req st) as [[Hdb Hupd]|(b & f & o & i & Hev & Hpdf & Hids & Hdb & Hupd)].
  - rewrite Hdb. split_and!; [|done|done|done|intros; apply direct_store].
    intros id fields Hin Hnew. by apply Hupd in Hin.
  - assert (named i) as Hnamed.
    { exists b, f, o. split_and!; [done|done|].
      unfold namesDatabaseKey in Hkey. by rewrite Hev, Hids in Hkey. }
    split_and!; [| | | |intros; apply direct_store].
    + intros id fields Hin Hnew.
      apply Hupd in Hin as [?|[-> ->]]; done.
    + destruct Hdb as [->| ->]; [done|]. rewrite dbUpdate_dom. set_solver.
    + intros id fld Hneq. destruct Hdb as [Hdb|Hdb]; rewrite Hdb in Hneq; [done|].
      destruct (decide (id = i)) as [->|Hid];
        [|by rewrite field_dbUpdate_other in Hneq by auto].
      destruct (decide (fld = "pngExtracted")) as [->|Hfld];
        [|by rewrite field_dbUpdate_other in Hneq by auto].
      rewrite Hdb. split_and!; [done|done|]. apply field_dbUpdate_flag.
    + intros id Hin Hnew. destruct Hdb as [Hdb|Hdb]; rewrite Hdb in Hin |- *; [done|].
      rewrite dbUpdate_dom in Hin.
      assert (id = i) as -> by set_solver.
      split; [done|]. apply dbUpdate_fresh. by apply not_elem_of_dom.
Qed.

Lemma store_write_is_the_flag_witness :
  let w := calm in
  let req := push_of "case(O100)(I9).pdf" in
  let st := sole_state in
  let db := orderItems st in
  let db' := orderItems (Push.handler w req st).2 in
  let named id :=
    ∃ bucketName filePath o,
      pushEvent w req = Some (bucketName, filePath)
      ∧ parseIds filePath = Some (Some o, Some id)
      ∧ databaseKey id = true in
  (∀ id fields,
     DbUpdate id fields ∈ calls (Push.handler w req st).2 →
     DbUpdate id fields ∉ calls st →
     named id ∧ fields = [("pngExtracted", JBool true)])
  ∧ dom db ⊆ dom db'
  ∧ (∀ id fld,
       field db' id fld ≠ field db id fld →
       named id ∧ fld = "pngExtracted" ∧ field db' id fld = Some (JBool true))
  ∧ (∀ id,
       id ∈ dom db' → id ∉ dom db →
       named id ∧ db' !! id = Some {[ "pngExtracted" := JBool true ]})
  ∧ (∀ object, orderItems (Direct.createImage w object st).2 = db).
Proof.
  apply (store_write_is_the_flag calm (push_of "case(O100)(I9).pdf") sole_state).
  reflexivity.
Defined.

(** C9, as stated, fails: a key naming an item that the store does not hold
    makes the handler create a record for it. *)
Lemma record_created_for_unknown_item :
  let after := (Push.handler calm (push_of "case(O100)(I9).pdf") sole_state).2 in
  orderItems sole_state !! "I9" = None
  ∧ orderItems after !! "I9" = Some {[ "pngExtracted" := JBool true ]}
  ∧ size (orderItems after) = S (size (orderItems sole_state)).
Proof. vm_compute. done. Qed.

(** ** C10 *)

Lemma directCalls_no_tracking (w : world) (b f : string) :
  forallb (λ c, negb (isTracking c)) (directCalls w b f) = true.
Proof.
  unfold directCalls. by destruct (download_ok w), (gs_ok w), (upload_ok w).
Qed.

(** C10. The storage-triggered handler never touches the order-item store or
    the webhook, whatever the key, identifiers or not: the store is as it
    was, and the calls it adds are none (the key is not a [.pdf]), the
    creation of the directory alone (it was taken), or the sequence directory,
    download, conversion, upload, deletion, cut at the first failure; none of
    them is an update, a query or a webhook call. *)
Theorem direct_only_transfers (w : world) (object : Direct.storageObject) (st : state) :
  orderItems (Direct.createImage w object st).2 = orderItems st
  ∧ ∃ new,
      calls (Direct.createImage w object st).2 = calls st ++ new
      ∧ (new = []
         ∨ new = [MkdirSync (workspace w (Direct.name object))]
         ∨ new = directCalls w (Direct.bucket object) (Direct.name object))
      ∧ new `prefix_of`
          [ MkdirSync (workspace w (Direct.name object));
            StorageDownload (Direct.bucket object) (Direct.name object)
                            (pdfIn w (Direct.name object));
            GsExec (GsJob true true "png16m" None
                          (toPngPath (pdfIn w (Direct.name object)))
                          (pdfIn w (Direct.name object)));
            StorageUpload (toPngPath (pdfIn w (Direct.name object)))
                          (Direct.bucket object) (toPngPath (Direct.name object));
            RimrafSync (workspace w (Direct.name object)) ]
      ∧ forallb (λ c, negb (isTracking c)) new = true.
Proof.
  split; [apply direct_store|].
  destruct (isPdf (Direct.name object)) eqn:Hpdf.
  - destruct (decide (workspace w (Direct.name object) ∈ dirs st)) as [Htaken|Hfresh].
    + rewrite (direct_dir_taken _ _ _ Hpdf Htaken). simpl.
      eexists. split_and!; [done|by right; left| |done].
      by eexists [_; _; _; _].
    + rewrite (direct_outcome _ _ _ Hpdf Hfresh). simpl.
      eexists. split_and!; [done|by right; right| |apply directCalls_no_tracking].
      unfold directCalls.
      destruct (download_ok w); [|by eexists [_; _; _]].
      destruct (gs_ok w); [|by eexists [_; _]].
      destruct (upload_ok w); [|by eexists [_]].
      by exists [].
  - rewrite (direct_non_pdf _ _ _ Hpdf).
    exists []. split_and!; [by rewrite app_nil_r|by left| |done].
    apply prefix_nil.
Qed.

(** On a key that holds identifiers, with their record in the store. *)
Example direct_ignores_identifiers :
  let out := Direct.createImage calm (Direct.StorageObject "pdf-to-png" "case(O100)(I1).pdf")
                                sole_state in
  parseIds "case(O100)(I1).pdf" = Some (Some "O100", Some "I1")
  ∧ out.1 = Ok tt
  ∧ orderItems out.2 = sole_item
  ∧ calls out.2
    = [ MkdirSync "/tmp/case(O100)(I1)_pdf_0.5";
        StorageDownload "pdf-to-png" "case(O100)(I1).pdf"
                        "/tmp/case(O100)(I1)_pdf_0.5/case(O100)(I1).pdf";
        GsExec (GsJob true true "png16m" None
                      "/tmp/case(O100)(I1)_pdf_0.5/case(O100)(I1).png"
                      "/tmp/case(O100)(I1)_pdf_0.5/case(O100)(I1).pdf");
        StorageUpload "/tmp/case(O100)(I1)_pdf_0.5/case(O100)(I1).png"
                      "pdf-to-png" "case(O100)(I1).png";
        RimrafSync "/tmp/case(O100)(I1)_pdf_0.5" ].
Proof. vm_compute. done. Qed.

(** ** C2 *)

Lemma snapshotVal_none (snapshot : store) : snapshotVal snapshot = None ↔ snapshot = ∅.
Proof. unfold snapshotVal. case_bool_decide; naive_solver. Qed.

Lemma snapshotVal_some (snapshot items : store) :
  snapshotVal snapshot = Some items ↔ snapshot ≠ ∅ ∧ items = snapshot.
Proof. unfold snapshotVal. case_bool_decide; naive_solver. Qed.

Lemma elem_of_objectValues (o : store) (item : record) :
  item ∈ objectValues o ↔ ∃ id, o !! id = Some item.
Proof.
  unfold objectValues. rewrite list_elem_of_fmap. split.
  - intros ([id item'] & -> & Hin). exists id. by apply elem_of_map_to_list.
  - intros (id & Hid). exists (id, item). split; [done|]. by apply elem_of_map_to_list.
Qed.

Lemma lookup_orderByChildEqualTo (fld : string) (v : jsval) (db : store) id (item : record) :
  orderByChildEqualTo fld v db !! id = Some item ↔ db !! id = Some item ∧ item !! fld = Some v.
Proof. unfold orderByChildEqualTo. by rewrite map_lookup_filter_Some. Qed.

Lemma allExtracted_spec (orderItems : store) :
  Push.allExtracted orderItems = true ↔
  ∀ id item, orderItems !! id = Some item → Push.approved item = true →
             Push.pngExtracted item = true.
Proof.
  unfold Push.allExtracted. rewrite forallb_forall. split.
  - intros Hall id item Hid Happ. apply Hall, filter_In. split; [|done].
    apply list_elem_of_In, elem_of_objectValues. eauto.
  - intros Hall item [Hin Happ]%filter_In.
    apply list_elem_of_In, elem_of_objectValues in Hin as [id Hid]. eauto.
Qed.

Lemma completionCheck_spec (db : store) (orderId : string) :
  completionCheck db orderId = true ↔
    (∃ id item, db !! id = Some item ∧ item !! "order" = Some (JStr orderId))
    ∧ (∀ id item,
         db !! id = Some item → item !! "order" = Some (JStr orderId) →
         item !! "orderItemStatus" = Some (JStr Push.APPROVED) →
         truthy (item !! "pngExtracted") = true).
Proof.
  unfold completionCheck.
  destruct (snapshotVal _) as [items|] eqn:Hval.
  - apply snapshotVal_some in Hval as [Hne ->]. rewrite allExtracted_spec. split.
    + intros Hall. split.
      * apply map_choose in Hne as (id & item & Hid).
        apply lookup_orderByChildEqualTo in Hid. eauto.
      * intros id item Hid Hord Hst. apply (Hall id).
        -- by apply lookup_orderByChildEqualTo.
        -- unfold Push.approved. by rewrite bool_decide_eq_true.
    + intros [_ Hall] id item [Hid Hord]%lookup_orderByChildEqualTo Happ.
      apply (Hall id); [done|done|].
      unfold Push.approved in Happ. by rewrite bool_decide_eq_true in Happ.
  - apply snapshotVal_none in Hval. split; [done|].
    intros [(id & item & Hid & Hord) _].
    assert (orderByChildEqualTo "order" (JStr orderId) db !! id = Some item) as Hin
      by (by apply lookup_orderByChildEqualTo).
    by rewrite Hval in Hin.
Qed.

(** C2, as amended. The webhook is called for an order exactly when the query
    succeeds and the completion check passes, and the check passes exactly
    when at least one item of any status belongs to the order and every item
    of the order whose [orderItemStatus] is the approved one has a
    [pngExtracted] that counts as true. With no item for the order the check
    fails. (With items of the order, none of them approved, it passes.) *)
Theorem completion_check (w : world) (st : state) (orderId : string) :
  (completionCheck (orderItems st) orderId = true ↔
     (∃ id item, orderItems st !! id = Some item ∧ item !! "order" = Some (JStr orderId))
     ∧ (∀ id item,
          orderItems st !! id = Some item → item !! "order" = Some (JStr orderId) →
          item !! "orderItemStatus" = Some (JStr Push.APPROVED) →
          truthy (item !! "pngExtracted") = true))
  ∧ calls (Push.notifyIfComplete w orderId st).2
    = calls st ++ DbQuery "order" (JStr orderId)
        :: (if query_ok w && completionCheck (orderItems st) orderId
            then [AxiosPost Push.WEBHOOK_URL orderId] else [])
  ∧ ((∀ id item, orderItems st !! id = Some item → item !! "order" ≠ Some (JStr orderId)) →
     completionCheck (orderItems st) orderId = false).
Proof.
  split_and!.
  - apply completionCheck_spec.
  - by rewrite notifyIfComplete_run.
  - intros Hnone. apply not_true_is_false.
    intros [(id & item & Hid & Hord) _]%completionCheck_spec. by apply (Hnone id item).
Qed.

(** C2, as stated, fails: for an order whose only item is not approved, the
    approved items are none and the check of the specification fails, but the
    check of the handler passes and the webhook is called. *)
Lemma no_approved_item_counts_as_complete :
  approvedItems pending_only "X" = []
  ∧ spec_isOrderComplete pending_only "X" = false
  ∧ completionCheck pending_only "X" = true
  ∧ calls (Push.notifyIfComplete calm "X" (State ∅ ∅ pending_only [])).2
    = [DbQuery "order" (JStr "X"); AxiosPost Push.WEBHOOK_URL "X"].
Proof. vm_compute. done. Qed.

(** The aggregation scenario of the specification. *)
Example completion_samples :
  completionCheck (two_approved false) "X" = false
  ∧ completionCheck (two_approved true) "X" = true
  ∧ completionCheck ∅ "X" = false
  ∧ spec_isOrderComplete (two_approved false) "X" = false
  ∧ spec_isOrderComplete (two_approved true) "X" = true.
Proof. vm_compute. done. Qed.

(** ** C8 *)

Lemma keep_app_len (s t : string) : Str.keep (Str.len s) (s +:+ t) = s.
Proof. induction s as [|c s IH]; [by destruct t|]. rewrite app_cons. simpl. by rewrite IH. Qed.

Lemma unquote_quoted (path : string) :
  unquote (dquote +:+ path +:+ dquote) = Some path.
Proof.
  unfold dquote at 1. rewrite app_cons, app_empty_l. simpl.
  rewrite len_app. simpl Str.len.
  replace (Str.len path + 1 - 1) with (Str.len path) by lia.
  by rewrite skip_app_len, keep_app_len, bool_decide_eq_true_2.
Qed.

(** The push endpoint hands the converter its two paths between double
    quotes, which makes one shell word of a path that holds spaces or
    parentheses. *)
Lemma push_converter_arguments (w : world) (pdfPath : string) (st : state) :
  calls (Push.convertPdfToImage w pdfPath st).2
    = calls st ++ [GsExec (GsJob true true "png256" (Some 72%Z)
                                 (dquote +:+ toPngPath pdfPath +:+ dquote)
                                 (dquote +:+ pdfPath +:+ dquote))]
  ∧ (anyChar dquoteSpecial pdfPath = false →
     shellWordFor pdfPath (dquote +:+ pdfPath +:+ dquote) = true).
Proof.
  split.
  - steps. simpl. by destruct (gs_ok w).
  - intros Hplain. unfold shellWordFor. rewrite unquote_quoted, Hplain.
    rewrite (bool_decide_eq_true_2 (pdfPath = pdfPath)) by done. apply orb_true_r.
Qed.

(** C8 fails on the storage-triggered handler. That handler hands the
    converter the two paths as they are; on the key [case(O100)(I1).pdf] the
    input path holds parentheses and is not one shell word, while the push
    endpoint hands over the same path between double quotes, which is. *)
Theorem direct_converter_gets_raw_path :
  (∀ w pdfPath st,
     calls (Direct.convertPdfToImage w pdfPath st).2
     = calls st ++ [GsExec (GsJob true true "png16m" None (toPngPath pdfPath) pdfPath)])
  ∧ gsJobs (calls (Direct.createImage calm
                     (Direct.StorageObject "pdf-to-png" "case(O100)(I1).pdf") empty_state).2)
    = [GsJob true true "png16m" None
             "/tmp/case(O100)(I1)_pdf_0.5/case(O100)(I1).png"
             "/tmp/case(O100)(I1)_pdf_0.5/case(O100)(I1).pdf"]
  ∧ anyChar shellSpecial "/tmp/case(O100)(I1)_pdf_0.5/case(O100)(I1).pdf" = true
  ∧ shellWordFor "/tmp/case(O100)(I1)_pdf_0.5/case(O100)(I1).pdf"
                 "/tmp/case(O100)(I1)_pdf_0.5/case(O100)(I1).pdf" = false
  ∧ gs_input <$> gsJobs (calls (Push.handler calm (push_of "case(O100)(I1).pdf")
                                  empty_state).2)
    = [dquote +:+ "/tmp/case(O100)(I1)_pdf_0.5/case(O100)(I1).pdf" +:+ dquote]
  ∧ shellWordFor "/tmp/case(O100)(I1)_pdf_0.5/case(O100)(I1).pdf"
                 (dquote +:+ "/tmp/case(O100)(I1)_pdf_0.5/case(O100)(I1).pdf" +:+ dquote)
    = true.
Proof.
  split.
  - intros w pdfPath st. steps. simpl. by destruct (gs_ok w).
  - vm_compute. done.
Qed.

(** ** Samples *)

Example parse_ex1 : parseIds "invoice(ORD1)(ITEM1).pdf" = Some (Some "ORD1", Some "ITEM1").
Proof. reflexivity. Qed.

Example parse_ex2 : parseIds "invoice.pdf" = None.
Proof. reflexivity. Qed.

(** The first group may hold opening parentheses. *)
Example parse_ex3 : parseIds "((a)(b)" = Some (Some "(a", Some "b").
Proof. reflexivity. Qed.

(** Empty groups do not match. *)
Example parse_ex4 : parseIds "x()(b).pdf" = None.
Proof. reflexivity. Qed.

Example png_ex1 : toPngPath "dir/a.b/File.PDF" = "dir/a.b/File.png".
Proof. reflexivity. Qed.

Example png_ex2 : toPngPath "dir/a.pdf/x" = "dir/a.pdf/x".
Proof. reflexivity. Qed.

Example pdf_ex1 : isPdf "dir/a.b/File.PDF" = true.
Proof. reflexivity. Qed.

Example pdf_ex2 : isPdf "pdf" = false.
Proof. reflexivity. Qed.

Example split_ex : Str.splitPop "/" "a/b/c.pdf" = "c.pdf".
Proof. reflexivity. Qed.

Example match_ex :
  Regex.js_match idPattern "invoice(ORD1)(ITEM1).pdf"
  = Some ["(ORD1)(ITEM1)"; "ORD1"; "ITEM1"].
Proof. reflexivity. Qed.

(** A push without message data, and one without a message. *)
Example missing_data_samples :
  Push.handler calm no_data sole_state = (Ok (Push.SendStatus 400), sole_state)
  ∧ Push.handler calm (Push.Request None) sole_state = (Ok (Push.SendStatus 400), sole_state)
  ∧ Push.handler calm (push_of "") sole_state = (Ok (Push.SendStatus 400), sole_state).
Proof. done. Qed.

(** The scenario of the specification: the sole approved item of its order. *)
Example scenario_sole_item :
  let out := Push.handler calm (push_of "case(O100)(I1).pdf") sole_state in
  out.1 = Ok (Push.StatusSend 200 "Converted PDF to PNG for file: case(O100)(I1).pdf")
  ∧ field (orderItems out.2) "I1" "pngExtracted" = Some (JBool true)
  ∧ filter (λ c, isTracking c = true) (calls out.2)
    = [ DbUpdate "I1" [("pngExtracted", JBool true)];
        DbQuery "order" (JStr "O100");
        AxiosPost Push.WEBHOOK_URL "O100" ]
  ∧ dirs out.2 = ∅.
Proof. vm_compute. done. Qed.

(** * Further properties of the helpers and of their composition *)

(** ** [createTempDir] *)

Lemma len_replaceAllChar (c u : ascii) (s : string) :
  Str.len (Str.replaceAllChar c (String u EmptyString) s) = Str.len s.
Proof.
  induction s as [|d s IH]; [done|]. simpl.
  case_bool_decide; rewrite ?app_cons, ?app_empty_l; simpl; by rewrite IH.
Qed.

Lemma has_replaceAllChar_gone (c u : ascii) (s : string) :
  u ≠ c → Str.has c (Str.replaceAllChar c (String u EmptyString) s) = false.
Proof.
  intros Hu. induction s as [|d s IH]; [done|]. simpl.
  case_bool_decide as Hd; rewrite ?app_cons, ?app_empty_l; simpl; rewrite IH.
  - by rewrite bool_decide_eq_false_2.
  - by rewrite bool_decide_eq_false_2.
Qed.

Lemma has_replaceAllChar_kept (c u e : ascii) (s : string) :
  e ≠ u → Str.has e s = false →
  Str.has e (Str.replaceAllChar c (String u EmptyString) s) = false.
Proof.
  intros Hu. induction s as [|d s IH]; [done|]. simpl.
  intros [Hd Hs]%orb_false_iff.
  destruct (bool_decide (d = c)); simpl; rewrite ?app_empty_l, IH by done.
  - rewrite bool_decide_eq_false_2; [done|]. by intros ->.
  - by rewrite Hd.
Qed.

Lemma createTempDir_result (w : world) (filePath : string) (st : state) :
  Push.createTempDir w filePath st
  = if bool_decide (workspace w filePath ∈ dirs st)
    then (Thrown, State (dirs st) (objects st) (orderItems st)
                        (calls st ++ [MkdirSync (workspace w filePath)]))
    else (Ok (workspace w filePath),
          State ({[workspace w filePath]} ∪ dirs st) (objects st) (orderItems st)
                (calls st ++ [MkdirSync (workspace w filePath)])).
Proof.
  unfold Push.createTempDir, mkdirSync, record_call, bind, ret. simpl.
  fold (workspace w filePath). by case_bool_decide.
Qed.

(** X1. [createTempDir], in either file, issues one [mkdirSync], on the
    temporary directory, a slash, one segment, an underscore and the random
    number; the segment has the length of the key and holds neither a slash
    nor a dot, so no key, whatever its slashes and dots, names a directory
    outside the temporary directory or below another one. The call either
    returns that path, the directory being new, or throws and leaves the
    directories as they were; it touches neither the buckets nor the store. *)
Theorem createTempDir_one_segment (w : world) (filePath : string) (st : state) :
  ∃ segment,
    Str.len segment = Str.len filePath
    ∧ Str.has "/" segment = false ∧ Str.has "." segment = false
    ∧ calls (Push.createTempDir w filePath st).2
      = calls st ++ [MkdirSync (tmpdir w +:+ "/" +:+ segment +:+ "_" +:+ random w)]
    ∧ ((Push.createTempDir w filePath st).1
         = Ok (tmpdir w +:+ "/" +:+ segment +:+ "_" +:+ random w)
       ∧ (tmpdir w +:+ "/" +:+ segment +:+ "_" +:+ random w ∉ dirs st)
       ∧ dirs (Push.createTempDir w filePath st).2
         = {[tmpdir w +:+ "/" +:+ segment +:+ "_" +:+ random w]} ∪ dirs st
       ∨ (Push.createTempDir w filePath st).1 = Thrown
         ∧ dirs (Push.createTempDir w filePath st).2 = dirs st)
    ∧ objects (Push.createTempDir w filePath st).2 = objects st
    ∧ orderItems (Push.createTempDir w filePath st).2 = orderItems st
    ∧ Direct.createTempDir w filePath st = Push.createTempDir w filePath st.
Proof.
  exists (Str.replaceAllChar "." "_" (Str.replaceAllChar "/" "_" filePath)).
  fold (workspace w filePath).
  assert (Direct.createTempDir w filePath st = Push.createTempDir w filePath st) as Hsame
    by reflexivity.
  rewrite Hsame, createTempDir_result.
  split_and!.
  - by rewrite !len_replaceAllChar.
  - apply has_replaceAllChar_kept; [done|]. by apply has_replaceAllChar_gone.
  - by apply has_replaceAllChar_gone.
  - by case_bool_decide.
  - case_bool_decide; [by right|by left].
  - by case_bool_decide.
  - by case_bool_decide.
  - done.
Qed.

Example createTempDir_sample :
  (Push.createTempDir calm "../a.b/x.pdf" empty_state).1 = Ok "/tmp/___a_b_x_pdf_0.5".
Proof. reflexivity. Qed.

(** X2. When the directory exists already, [createTempDir] throws and makes
    nothing; the push endpoint then answers 200 and the storage-triggered
    function rejects, each having issued the [mkdirSync] call and no other,
    with the directories, the buckets and the store as they were. *)
Theorem taken_directory_stops_the_handling (w : world) (st : state)
    (req : Push.request) (object : Direct.storageObject)
    (bucketName filePath : string) :
  pushEvent w req = Some (bucketName, filePath) →
  Direct.name object = filePath →
  isPdf filePath = true →
  is_Some (parseIds filePath) →
  workspace w filePath ∈ dirs st →
  Push.createTempDir w filePath st
    = (Thrown, State (dirs st) (objects st) (orderItems st)
                     (calls st ++ [MkdirSync (workspace w filePath)]))
  ∧ Push.handler w req st
    = (Ok (Push.SendStatus 200),
       State (dirs st) (objects st) (orderItems st)
             (calls st ++ [MkdirSync (workspace w filePath)]))
  ∧ Direct.createImage w object st
    = (Thrown, State (dirs st) (objects st) (orderItems st)
                     (calls st ++ [MkdirSync (workspace w filePath)])).
Proof.
  intros Hev Hname Hpdf [ids Hids] Htaken. split_and!.
  - unfold Push.createTempDir, mkdirSync, record_call, bind, ret. simpl.
    fold (workspace w filePath). by rewrite bool_decide_eq_true_2.
  - by apply push_dir_taken with bucketName ids.
  - rewrite <- Hname in *. by apply direct_dir_taken.
Qed.

Lemma taken_directory_stops_the_handling_witness :
  Push.createTempDir calm "case(O100)(I1).pdf" taken_state
    = (Thrown, State (dirs taken_state) (objects taken_state) (orderItems taken_state)
                     (calls taken_state ++ [MkdirSync (workspace calm "case(O100)(I1).pdf")]))
  ∧ Push.handler calm (push_of "case(O100)(I1).pdf") taken_state
    = (Ok (Push.SendStatus 200),
       State (dirs taken_state) (objects taken_state) (orderItems taken_state)
             (calls taken_state ++ [MkdirSync (workspace calm "case(O100)(I1).pdf")]))
  ∧ Direct.createImage calm (Direct.StorageObject "pdf-to-png" "case(O100)(I1).pdf")
                       taken_state
    = (Thrown, State (dirs taken_state) (objects taken_state) (orderItems taken_state)
                     (calls taken_state ++ [MkdirSync (workspace calm "case(O100)(I1).pdf")])).
Proof.
  apply (taken_directory_stops_the_handling calm taken_state
           (push_of "case(O100)(I1).pdf")
           (Direct.StorageObject "pdf-to-png" "case(O100)(I1).pdf")
           "pdf-to-png" "case(O100)(I1).pdf"); try reflexivity; vm_compute; eauto.
Defined.

(** ** [downloadPdf] *)

Lemma has_app_str (c : ascii) (s t : string) :
  Str.has c (s +:+ t) = Str.has c s || Str.has c t.
Proof.
  induction s as [|d s IH]; [done|]. rewrite app_cons. simpl.
  by rewrite IH, orb_assoc.
Qed.

Lemma lastSegment_no_sep (sep : ascii) (s seg : string) :
  Str.has sep s = false → Str.lastSegment_from sep seg s = seg +:+ s.
Proof.
  revert seg. induction s as [|d s IH]; intros seg; simpl.
  - by rewrite app_empty_r.
  - intros [Hd Hs]%orb_false_iff. rewrite Hd, IH by done.
    by rewrite app_assoc_str.
Qed.

Lemma lastSegment_app (sep : ascii) (s t seg : string) :
  Str.has sep t = false →
  Str.lastSegment_from sep seg (s +:+ t) = Str.lastSegment_from sep seg s +:+ t.
Proof.
  intros Ht. revert seg. induction s as [|d s IH]; intros seg.
  - rewrite app_empty_l. by apply lastSegment_no_sep.
  - rewrite app_cons. simpl. by destruct (bool_decide (d = sep)).
Qed.

Lemma lastSegment_spec (sep : ascii) (s seg : string) :
  Str.has sep seg = false →
  Str.has sep (Str.lastSegment_from sep seg s) = false
  ∧ (Str.lastSegment_from sep seg s = seg +:+ s
     ∨ ∃ before, s = before +:+ String sep (Str.lastSegment_from sep seg s)).
Proof.
  revert seg. induction s as [|d s IH]; intros seg Hseg; simpl.
  - split; [done|]. left. by rewrite app_empty_r.
  - case_bool_decide as Hd.
    + subst d. destruct (IH EmptyString) as [Hno [Hall|[before Hcut]]]; [done| |].
      * split; [done|]. right. exists EmptyString.
        rewrite app_empty_l. by rewrite Hall.
      * split; [done|]. right. exists (String sep before).
        rewrite app_cons. by f_equal.
    + destruct (IH (seg +:+ String d EmptyString)) as [Hno [Hall|[before Hcut]]].
      * rewrite has_app_str, Hseg. simpl. by rewrite bool_decide_eq_false_2.
      * split; [done|]. left. by rewrite Hall, app_assoc_str.
      * split; [done|]. right. exists (String d before).
        rewrite app_cons. by f_equal.
Qed.

(** X3. [downloadPdf], in either file, asks for the object under its full key
    and names as destination the last segment of the key inside the given
    directory: that segment holds no slash, and it is the whole key or what
    follows the last slash of the key. The call is recorded whether the
    download succeeds or not; the destination is returned when it succeeds,
    and the function throws when it fails. *)
Theorem downloadPdf_destination (w : world) (bucketName filePath tempDir : string)
    (st : state) :
  ∃ base,
    Str.has "/" base = false
    ∧ (filePath = base ∨ ∃ before, filePath = before +:+ "/" +:+ base)
    ∧ Push.downloadPdf w bucketName filePath tempDir st
      = (if download_ok w then Ok (tempDir +:+ "/" +:+ base) else Thrown,
         State (dirs st) (objects st) (orderItems st)
               (calls st ++ [StorageDownload bucketName filePath (tempDir +:+ "/" +:+ base)]))
    ∧ Direct.downloadPdf w bucketName tempDir filePath st
      = Push.downloadPdf w bucketName filePath tempDir st.
Proof.
  exists (Str.splitPop "/" filePath).
  destruct (lastSegment_spec "/" filePath EmptyString) as [Hno Hcut]; [done|].
  split_and!; [done| | |done].
  - destruct Hcut as [Hall|[before Hcut]]; [by left|right].
    exists before. by rewrite app_cons, app_empty_l.
  - unfold Push.downloadPdf, storageDownload, record_call, settle, bind, ret, throw.
    simpl. by destruct (download_ok w).
Qed.

Example downloadPdf_samples :
  Str.splitPop "/" "orders/2024/" = EmptyString
  ∧ Str.splitPop "/" "case.pdf" = "case.pdf"
  ∧ (Push.downloadPdf calm "b" "orders/2024/case.pdf" "/tmp/d" empty_state).1
    = Ok "/tmp/d/case.pdf".
Proof. done. Qed.

(** ** The suffix test and the suffix replacement *)

Lemma run_pdfSuffix_sound (s : string) caps rest :
  Regex.run pdfSuffix [] s = Some (caps, rest) → Str.toLowerCase s = ".pdf".
Proof.
  destruct s as [|a [|b [|c [|d [|e s]]]]]; simpl; try done;
    repeat case_match; try done.
  intros _.
  repeat match goal with
         | H : bool_decide _ = true |- _ => apply bool_decide_eq_true in H; rewrite H
         end.
  reflexivity.
Qed.

Lemma search_pdfSuffix_none (s before : string) :
  isPdf s = false → Regex.search pdfSuffix before s = None.
Proof.
  intros Hpdf. destruct (Regex.search pdfSuffix before s) as [[[pre caps] rest]|] eqn:Hs;
    [|done].
  apply search_sound in Hs as (skipped & tail & _ & -> & Hrun%run_pdfSuffix_sound).
  assert (isPdf (skipped +:+ tail) = true) by (apply isPdf_split; eauto).
  congruence.
Qed.

Lemma app_inv_head_str (s t u : string) : s +:+ t = s +:+ u → t = u.
Proof.
  induction s as [|c s IH]; [done|]. rewrite !app_cons. intros [= ?]. auto.
Qed.

Lemma isPdf_png (stem : string) : isPdf (stem +:+ ".png") = false.
Proof.
  unfold isPdf, Str.endsWith. rewrite toLowerCase_app, len_app.
  simpl (Str.len (Str.toLowerCase ".png")). simpl (Str.len ".pdf").
  replace (Str.len (Str.toLowerCase stem) + 4 - 4) with (Str.len (Str.toLowerCase stem))
    by lia.
  rewrite skip_app_len. apply andb_false_r.
Qed.

(** X4. The suffix replacement agrees with the suffix test. On a key that
    does not pass the test the replacement changes nothing. On a key that
    passes it the result has the same length, differs from the key and does
    not pass the test itself; hence replacing twice is replacing once, and the
    storage-triggered function, which uploads into the bucket it was
    triggered from, returns at once on the event of its own upload. *)
Theorem toPngPath_and_isPdf (w : world) (st : state) (bucketName filePath : string) :
  (isPdf filePath = false → toPngPath filePath = filePath)
  ∧ (isPdf filePath = true →
     toPngPath filePath ≠ filePath
     ∧ Str.len (toPngPath filePath) = Str.len filePath)
  ∧ isPdf (toPngPath filePath) = false
  ∧ toPngPath (toPngPath filePath) = toPngPath filePath
  ∧ (isPdf filePath = true →
     Direct.createImage w (Direct.StorageObject bucketName (toPngPath filePath)) st
     = (Ok tt, st)).
Proof.
  assert (isPdf filePath = false → toPngPath filePath = filePath) as Hkeep.
  { intros Hpdf. unfold toPngPath, Regex.js_replace.
    by rewrite search_pdfSuffix_none. }
  assert (isPdf filePath = true → isPdf (toPngPath filePath) = false) as Hpng.
  { intros (stem & ext & -> & Hext)%isPdf_split.
    rewrite toPngPath_split by done. apply isPdf_png. }
  split_and!.
  - done.
  - intros Hpdf. destruct (proj1 (isPdf_split filePath) Hpdf) as (stem & ext & -> & Hext).
    rewrite toPngPath_split by done. split.
    + intros Heq%app_inv_head_str. by subst ext.
    + rewrite !len_app. by rewrite <- (len_toLowerCase ext), Hext.
  - destruct (isPdf filePath) eqn:Hpdf; [by apply Hpng|].
    by rewrite Hkeep.
  - destruct (isPdf filePath) eqn:Hpdf.
    + unfold toPngPath at 1, Regex.js_replace.
      by rewrite search_pdfSuffix_none by auto.
    + by rewrite !Hkeep.
  - intros Hpdf. apply direct_non_pdf. simpl. auto.
Qed.

Example toPngPath_samples :
  toPngPath "a.pdf.PDF" = "a.pdf.png" ∧ toPngPath "a.pdf.txt" = "a.pdf.txt"
  ∧ toPngPath ".pdf" = ".png" ∧ toPngPath "pdf" = "pdf".
Proof. done. Qed.

(** ** The local paths of a conversion *)

Lemma pdf_suffix_no_slash (ext : string) :
  Str.toLowerCase ext = ".pdf" → Str.has "/" ext = false.
Proof.
  destruct ext as [|a [|b [|c [|d [|e rest]]]]]; simpl; try done.
  intros [= Ha Hb Hc Hd].
  assert (∀ x y : ascii, Str.lower x = y → y ≠ "/"%char →
                         bool_decide (x = "/"%char) = false) as Hne.
  { intros x y Hx Hy. apply bool_decide_eq_false. intros ->. by rewrite <- Hx in Hy. }
  by rewrite (Hne _ _ Ha), (Hne _ _ Hb), (Hne _ _ Hc), (Hne _ _ Hd).
Qed.

(** X5. For a key that passes the suffix test, the path that [downloadPdf]
    returns passes it too, so [convertPdfToImage] names an image that differs
    from its input: it is the last segment of the key with its suffix
    replaced, in the same directory as the input. Both files hand these two
    paths to the converter, the push endpoint between double quotes. *)
Theorem conversion_paths (w : world) (filePath tempDir : string) (st : state) :
  isPdf filePath = true →
  let pdfPath := tempDir +:+ "/" +:+ Str.splitPop "/" filePath in
  let imagePath := tempDir +:+ "/" +:+ toPngPath (Str.splitPop "/" filePath) in
  isPdf pdfPath = true
  ∧ imagePath ≠ pdfPath
  ∧ Str.has "/" (toPngPath (Str.splitPop "/" filePath)) = false
  ∧ Direct.convertPdfToImage w pdfPath st
    = (if gs_ok w then Ok imagePath else Thrown,
       State (dirs st) (objects st) (orderItems st)
             (calls st ++ [GsExec (GsJob true true "png16m" None imagePath pdfPath)]))
  ∧ Push.convertPdfToImage w pdfPath st
    = (if gs_ok w then Ok imagePath else Thrown,
       State (dirs st) (objects st) (orderItems st)
             (calls st ++ [GsExec (GsJob true true "png256" (Some 72%Z)
                                         (dquote +:+ imagePath +:+ dquote)
                                         (dquote +:+ pdfPath +:+ dquote))])).
Proof.
  intros (stem & ext & -> & Hext)%isPdf_split pdfPath imagePath.
  pose proof (pdf_suffix_no_slash _ Hext) as Hslash.
  assert (Str.splitPop "/" (stem +:+ ext) = Str.splitPop "/" stem +:+ ext) as Hbase.
  { unfold Str.splitPop. by apply lastSegment_app. }
  assert (toPngPath pdfPath = imagePath) as Himage.
  { subst pdfPath imagePath. rewrite Hbase.
    rewrite (toPngPath_split (Str.splitPop "/" stem) ext Hext).
    rewrite <- !app_assoc_str. rewrite toPngPath_split by done.
    by rewrite !app_assoc_str. }
  split_and!.
  - subst pdfPath. rewrite Hbase, <- !app_assoc_str. apply isPdf_split. eauto.
  - subst pdfPath imagePath. rewrite Hbase.
    rewrite (toPngPath_split (Str.splitPop "/" stem) ext Hext).
    rewrite <- !app_assoc_str. intros Heq%app_inv_head_str. by subst ext.
  - rewrite Hbase, (toPngPath_split (Str.splitPop "/" stem) ext Hext).
    rewrite has_app_str.
    destruct (lastSegment_spec "/" stem EmptyString) as [Hno _]; [done|].
    unfold Str.splitPop. by rewrite Hno.
  - unfold Direct.convertPdfToImage, gsExec, record_call, settle, bind, ret, throw.
    simpl. rewrite Himage. by destruct (gs_ok w).
  - unfold Push.convertPdfToImage, gsExec, record_call, settle, bind, ret, throw.
    simpl. rewrite Himage. by destruct (gs_ok w).
Qed.

Lemma conversion_paths_witness :
  let pdfPath := "/tmp/d" +:+ "/" +:+ Str.splitPop "/" "orders/Case(O1)(I1).PDF" in
  let imagePath := "/tmp/d" +:+ "/" +:+ toPngPath (Str.splitPop "/" "orders/Case(O1)(I1).PDF") in
  isPdf pdfPath = true
  ∧ imagePath ≠ pdfPath
  ∧ Str.has "/" (toPngPath (Str.splitPop "/" "orders/Case(O1)(I1).PDF")) = false
  ∧ Direct.convertPdfToImage calm pdfPath empty_state
    = (if gs_ok calm then Ok imagePath else Thrown,
       State (dirs empty_state) (objects empty_state) (orderItems empty_state)
             (calls empty_state ++ [GsExec (GsJob true true "png16m" None imagePath pdfPath)]))
  ∧ Push.convertPdfToImage calm pdfPath empty_state
    = (if gs_ok calm then Ok imagePath else Thrown,
       State (dirs empty_state) (objects empty_state) (orderItems empty_state)
             (calls empty_state ++ [GsExec (GsJob true true "png256" (Some 72%Z)
                                                  (dquote +:+ imagePath +:+ dquote)
                                                  (dquote +:+ pdfPath +:+ dquote))])).
Proof.
  apply (conversion_paths calm "orders/Case(O1)(I1).PDF" "/tmp/d" empty_state).
  reflexivity.
Defined.

(** ** The choice of the match *)

Lemma search_leftmost (p : Regex.pattern) (s before pre : string) caps rest :
  Regex.search p before s = Some (pre, caps, rest) →
  ∃ skipped tail,
    pre = before +:+ skipped ∧ s = skipped +:+ tail
    ∧ Regex.run p [] tail = Some (caps, rest)
    ∧ ∀ skipped' tail',
        s = skipped' +:+ tail' → Str.len skipped' < Str.len skipped →
        Regex.run p [] tail' = None.
Proof.
  revert before. induction s as [|d s IH]; intros before; rewrite search_unfold.
  - destruct (Regex.run p [] EmptyString) as [[caps' rest']|] eqn:Hrun; [|done].
    intros [= <- <- <-]. exists EmptyString, EmptyString.
    rewrite app_empty_r. split_and!; [done|done|done|]. simpl. lia.
  - destruct (Regex.run p [] (String d s)) as [[caps' rest']|] eqn:Hrun.
    + intros [= <- <- <-]. exists EmptyString, (String d s).
      rewrite app_empty_r. split_and!; [done|done|done|]. simpl. lia.
    + intros (skipped & tail & -> & -> & Htail & Hleft)%IH.
      exists (String d skipped), tail.
      rewrite app_assoc_str, !app_cons. split_and!; [done|done|done|].
      intros [|e skipped'] tail'.
      * rewrite app_empty_l. by intros <-.
      * rewrite app_cons. intros [= <- Hcut] Hlen. simpl in Hlen.
        apply (Hleft _ _ Hcut). lia.
Qed.

Lemma app_inv_len (s1 t1 s2 t2 : string) :
  s1 +:+ t1 = s2 +:+ t2 → Str.len s1 = Str.len s2 → s1 = s2 ∧ t1 = t2.
Proof.
  revert s2. induction s1 as [|c s1 IH]; intros [|c2 s2]; try done.
  rewrite !app_cons. intros [= <- Heq] [= Hlen].
  destruct (IH _ Heq Hlen) as [-> ->]. done.
Qed.

(** X6. When a key holds several pairs of identifiers, the parsing returns
    the pair that starts first: no pair of the key starts before the one
    returned, and a pair that starts at the same place is the one returned. *)
Theorem parseIds_leftmost (key o i : string) :
  parseIds key = Some (Some o, Some i) →
  ∃ pre post,
    idsAt key pre o i post
    ∧ ∀ pre' o' i' post',
        idsAt key pre' o' i' post' →
        Str.len pre ≤ Str.len pre'
        ∧ (Str.len pre' = Str.len pre → o' = o ∧ i' = i).
Proof.
  unfold parseIds, Regex.js_match.
  destruct (Regex.search idPattern EmptyString key) as [[[pre caps] rest]|] eqn:Hs; [|done].
  intros Hm.
  apply search_leftmost in Hs as (skipped & tail & -> & -> & Hrun & Hleft).
  pose proof Hrun as (o0 & i0 & -> & Hids & Ho & Hi & Hco & Hci)%run_idPattern_sound.
  simpl in Hm. injection Hm as <- <-.
  exists skipped, rest. split; [by rewrite Hids|].
  intros pre' o' i' post' (Hkey & Ho' & Hi' & Hco' & Hci').
  pose proof (run_idPattern_complete o' i' post' Ho' Hi' Hco' Hci') as Hrun'.
  split.
  - destruct (decide (Str.len pre' < Str.len skipped)) as [Hlt|]; [|lia].
    pose proof (Hleft _ _ Hkey Hlt) as Hnone. congruence.
  - intros Hlen. destruct (app_inv_len _ _ _ _ Hkey (eq_sym Hlen)) as [_ Htail].
    rewrite <- Htail, Hrun in Hrun'. by injection Hrun' as <- <-.
Qed.

Lemma parseIds_leftmost_witness :
  ∃ pre post,
    idsAt "x(a)(b)(c)(d).pdf" pre "a" "b" post
    ∧ ∀ pre' o' i' post',
        idsAt "x(a)(b)(c)(d).pdf" pre' o' i' post' →
        Str.len pre ≤ Str.len pre'
        ∧ (Str.len pre' = Str.len pre → o' = "a" ∧ i' = "b").
Proof. apply (parseIds_leftmost "x(a)(b)(c)(d).pdf" "a" "b"). reflexivity. Defined.

(** ** What a handling leaves alone *)

(** A request makes the push handler leave the state as it is, or carries a
    [.pdf] key that holds a pair of identifiers. *)
Lemma push_cases (w : world) (req : Push.request) (st : state) :
  (Push.handler w req st).2 = st
  ∨ ∃ bucketName filePath o i,
      pushEvent w req = Some (bucketName, filePath)
      ∧ isPdf filePath = true
      ∧ parseIds filePath = Some (Some o, Some i).
Proof.
  destruct (pushEvent w req) as [[bucketName filePath]|] eqn:Hev;
    [|left; by rewrite (handler_no_event _ _ _ Hev)].
  destruct (isPdf filePath) eqn:Hpdf;
    [|left; by rewrite (push_non_pdf _ _ _ _ _ Hev Hpdf)].
  destruct (parseIds filePath) as [[orderId orderItemId]|] eqn:Hids;
    [|left; by rewrite (push_bad_name _ _ _ _ _ Hev Hpdf Hids)].
  destruct (parseIds_truthy _ _ _ Hids) as (o & i & -> & -> & _).
  right. eauto 10.
Qed.

(** X7. A handling touches no directory but its own, deletes no object of a
    bucket and keeps the calls recorded before it: a directory other than the
    one of the key exists afterwards exactly when it existed before, the
    objects held before are held afterwards, the only object that can be added
    is the result under its [.png] key, and the earlier calls remain as the
    first calls of the record. This holds for the push endpoint and for the
    storage-triggered function, on every request and in every world. *)
Theorem handling_frame (w : world) (st : state) (req : Push.request)
    (object : Direct.storageObject) :
  ((∀ d, (∀ bucketName filePath,
            pushEvent w req = Some (bucketName, filePath) → d ≠ workspace w filePath) →
         d ∈ dirs (Push.handler w req st).2 ↔ d ∈ dirs st)
   ∧ objects st ⊆ objects (Push.handler w req st).2
   ∧ (∀ x, x ∈ objects (Push.handler w req st).2 → x ∉ objects st →
           ∃ bucketName filePath,
             pushEvent w req = Some (bucketName, filePath)
             ∧ x = (Push.DESTINATION_BUCKET, toPngPath filePath))
   ∧ calls st `prefix_of` calls (Push.handler w req st).2)
  ∧ ((∀ d, d ≠ workspace w (Direct.name object) →
           d ∈ dirs (Direct.createImage w object st).2 ↔ d ∈ dirs st)
     ∧ objects st ⊆ objects (Direct.createImage w object st).2
     ∧ (∀ x, x ∈ objects (Direct.createImage w object st).2 → x ∉ objects st →
             x = (Direct.bucket object, toPngPath (Direct.name object)))
     ∧ calls st `prefix_of` calls (Direct.createImage w object st).2).
Proof.
  split.
  - destruct (push_cases w req st) as [->|(b & f & o & i & Hev & Hpdf & Hids)];
      [by split_and!|].
    destruct (decide (workspace w f ∈ dirs st)) as [Htaken|Hfresh].
    + rewrite (push_dir_taken _ _ _ _ _ _ Hev Hpdf Hids Htaken). simpl.
      split_and!; [done|done|done|by apply prefix_app_r].
    + rewrite (push_outcome _ _ _ _ _ _ _ Hev Hpdf Hids Hfresh). simpl.
      split_and!; [| | |by apply prefix_app_r].
      * intros d Hd. specialize (Hd _ _ Hev). destruct (tracked w); set_solver.
      * destruct (transferred w); set_solver.
      * intros x Hx Hnew. exists b, f. split; [done|].
        destruct (transferred w); set_solver.
  - destruct (isPdf (Direct.name object)) eqn:Hpdf;
      [|rewrite (direct_non_pdf _ _ _ Hpdf); by split_and!].
    destruct (decide (workspace w (Direct.name object) ∈ dirs st)) as [Htaken|Hfresh].
    + rewrite (direct_dir_taken _ _ _ Hpdf Htaken). simpl.
      split_and!; [done|done|done|by apply prefix_app_r].
    + rewrite (direct_outcome _ _ _ Hpdf Hfresh). simpl.
      split_and!; [| | |by apply prefix_app_r].
      * intros d Hd. destruct (transferred w); set_solver.
      * destruct (transferred w); set_solver.
      * intros x Hx Hnew. destruct (transferred w); set_solver.
Qed.

(** ** Buckets *)

Lemma transfer_in_pushCalls (w : world) (b f o i : string) (db : store) :
  (∀ bk file dest, StorageDownload bk file dest ∈ pushCalls w b f o i db →
                   bk = b ∧ file = f ∧ dest = pdfIn w f)
  ∧ (∀ l bk dest, StorageUpload l bk dest ∈ pushCalls w b f o i db →
                  l = toPngPath (pdfIn w f) ∧ bk = Push.DESTINATION_BUCKET).
Proof.
  unfold pushCalls.
  destruct (download_ok w), (gs_ok w), (upload_ok w), (update_ok w), (query_ok w),
    (completionCheck (dbUpdate i flagExtracted db) o); simpl;
    split; intros ???; rewrite ?elem_of_cons, ?elem_of_nil; naive_solver.
Qed.

Lemma transfer_in_directCalls (w : world) (b f : string) :
  (∀ bk file dest, StorageDownload bk file dest ∈ directCalls w b f →
                   bk = b ∧ file = f ∧ dest = pdfIn w f)
  ∧ (∀ l bk dest, StorageUpload l bk dest ∈ directCalls w b f →
                  l = toPngPath (pdfIn w f) ∧ bk = b).
Proof.
  unfold directCalls.
  destruct (download_ok w), (gs_ok w), (upload_ok w); simpl;
    split; intros ???; rewrite ?elem_of_cons, ?elem_of_nil; naive_solver.
Qed.

(** X8. The push endpoint downloads the key from the bucket named by the
    event, or from [pdf-to-png] when the event names none, and uploads into
    [pdf-to-png-output] only, whatever bucket the event names; the
    storage-triggered function downloads from and uploads into the bucket of
    its event. In both, the file downloaded and the file uploaded lie in the
    directory of the key. *)
Theorem buckets_of_the_transfers (w : world) (st : state) (req : Push.request)
    (object : Direct.storageObject) :
  (∀ bucketName filePath,
     pushEvent w req = Some (bucketName, filePath) →
     (∀ bk file dest,
        StorageDownload bk file dest ∈ calls (Push.handler w req st).2 →
        StorageDownload bk file dest ∉ calls st →
        bk = bucketName ∧ file = filePath ∧ dest = pdfIn w filePath)
     ∧ (∀ l bk dest,
          StorageUpload l bk dest ∈ calls (Push.handler w req st).2 →
          StorageUpload l bk dest ∉ calls st →
          l = toPngPath (pdfIn w filePath) ∧ bk = "pdf-to-png-output"))
  ∧ (∀ payload gcsEvent filePath,
       Push.messageData req = Some payload →
       decodeEvent w payload = Some gcsEvent →
       ev_name gcsEvent = Some filePath →
       ev_bucket gcsEvent = None ∨ ev_bucket gcsEvent = Some EmptyString →
       pushEvent w req = Some ("pdf-to-png", filePath))
  ∧ (∀ bk file dest,
       StorageDownload bk file dest ∈ calls (Direct.createImage w object st).2 →
       StorageDownload bk file dest ∉ calls st →
       bk = Direct.bucket object ∧ file = Direct.name object
       ∧ dest = pdfIn w (Direct.name object))
  ∧ (∀ l bk dest,
       StorageUpload l bk dest ∈ calls (Direct.createImage w object st).2 →
       StorageUpload l bk dest ∉ calls st →
       l = toPngPath (pdfIn w (Direct.name object)) ∧ bk = Direct.bucket object).
Proof.
  split_and!.
  - intros bucketName filePath Hev.
    destruct (push_cases w req st) as [->|(b & f & o & i & Hev' & Hpdf & Hids)];
      [by split|].
    rewrite Hev in Hev'. injection Hev' as <- <-.
    destruct (decide (workspace w filePath ∈ dirs st)) as [Htaken|Hfresh].
    + rewrite (push_dir_taken _ _ _ _ _ _ Hev Hpdf Hids Htaken). simpl.
      split; intros ??? [?|Hin]%elem_of_app ?; try done;
        by apply list_elem_of_singleton in Hin.
    + rewrite (push_outcome _ _ _ _ _ _ _ Hev Hpdf Hids Hfresh). simpl.
      destruct (transfer_in_pushCalls w bucketName filePath o i (orderItems st))
        as [Hdl Hup].
      split; intros ??? [?|Hin]%elem_of_app ?; try done; eauto.
  - intros payload gcsEvent filePath Hdata Hdec Hname Hbucket.
    unfold pushEvent. rewrite Hdata, Hdec, Hname.
    by destruct Hbucket as [-> | ->].
  - destruct (transfer_in_directCalls w (Direct.bucket object) (Direct.name object))
      as [Hdl _].
    destruct (isPdf (Direct.name object)) eqn:Hpdf;
      [|by rewrite (direct_non_pdf _ _ _ Hpdf)].
    destruct (decide (workspace w (Direct.name object) ∈ dirs st)) as [Htaken|Hfresh].
    + rewrite (direct_dir_taken _ _ _ Hpdf Htaken). simpl.
      intros ??? [?|Hin]%elem_of_app ?; [done|].
      by apply list_elem_of_singleton in Hin.
    + rewrite (direct_outcome _ _ _ Hpdf Hfresh). simpl.
      intros ??? [?|Hin]%elem_of_app ?; [done|]. eauto.
  - destruct (transfer_in_directCalls w (Direct.bucket object) (Direct.name object))
      as [_ Hup].
    destruct (isPdf (Direct.name object)) eqn:Hpdf;
      [|by rewrite (direct_non_pdf _ _ _ Hpdf)].
    destruct (decide (workspace w (Direct.name object) ∈ dirs st)) as [Htaken|Hfresh].
    + rewrite (direct_dir_taken _ _ _ Hpdf Htaken). simpl.
      intros ??? [?|Hin]%elem_of_app ?; [done|].
      by apply list_elem_of_singleton in Hin.
    + rewrite (direct_outcome _ _ _ Hpdf Hfresh). simpl.
      intros ??? [?|Hin]%elem_of_app ?; [done|]. eauto.
Qed.

(** ** The order of the steps *)

Lemma tracking_in_pushCalls (w : world) (b f o i : string) (db : store) (c : call) :
  c ∈ pushCalls w b f o i db → isTracking c = true → transferred w = true.
Proof.
  unfold pushCalls, transferred.
  destruct (download_ok w), (gs_ok w), (upload_ok w), (update_ok w), (query_ok w),
    (completionCheck (dbUpdate i flagExtracted db) o); simpl;
    rewrite ?elem_of_cons, ?elem_of_nil; naive_solver.
Qed.

(** X9. The push endpoint turns to the store and to the webhook only after
    the result is uploaded: if a handling issues an update, a query or a
    webhook call, or leaves the store changed, then the download, the
    conversion and the upload have succeeded and the destination bucket holds
    the object under the [.png] key. *)
Theorem tracking_follows_the_upload (w : world) (req : Push.request) (st : state) :
  (∃ c, c ∈ calls (Push.handler w req st).2 ∧ (c ∉ calls st) ∧ isTracking c = true)
  ∨ orderItems (Push.handler w req st).2 ≠ orderItems st →
  transferred w = true
  ∧ ∃ bucketName filePath,
      pushEvent w req = Some (bucketName, filePath)
      ∧ (Push.DESTINATION_BUCKET, toPngPath filePath) ∈ objects (Push.handler w req st).2
      ∧ StorageUpload (toPngPath (pdfIn w filePath)) Push.DESTINATION_BUCKET
                      (toPngPath filePath)
          ∈ calls (Push.handler w req st).2.
Proof.
  destruct (push_cases w req st) as [->|(b & f & o & i & Hev & Hpdf & Hids)].
  { intros [(c & ? & ? & _)|?]; done. }
  destruct (decide (workspace w f ∈ dirs st)) as [Htaken|Hfresh].
  - rewrite (push_dir_taken _ _ _ _ _ _ Hev Hpdf Hids Htaken). simpl.
    intros [(c & [?|Hin]%elem_of_app & ? & Htr)|?]; [done| |done].
    apply list_elem_of_singleton in Hin. by subst c.
  - rewrite (push_outcome _ _ _ _ _ _ _ Hev Hpdf Hids Hfresh). simpl.
    intros Hsome.
    assert (transferred w = true) as Hok.
    { destruct Hsome as [(c & [?|Hin]%elem_of_app & ? & Htr)|Hdb]; [done| |].
      - by apply tracking_in_pushCalls in Hin.
      - destruct (transferred w); [done|]. by simpl in Hdb. }
    rewrite Hok. split; [done|]. exists b, f. split_and!; [done|set_solver|].
    unfold transferred in Hok. apply andb_true_iff in Hok as [[Hdl Hgs]%andb_true_iff _].
    unfold pushCalls. rewrite Hdl, Hgs. set_solver.
Qed.

Lemma tracking_follows_the_upload_witness :
  transferred calm = true
  ∧ ∃ bucketName filePath,
      pushEvent calm (push_of "case(O100)(I1).pdf") = Some (bucketName, filePath)
      ∧ (Push.DESTINATION_BUCKET, toPngPath filePath)
          ∈ objects (Push.handler calm (push_of "case(O100)(I1).pdf") sole_state).2
      ∧ StorageUpload (toPngPath (pdfIn calm filePath)) Push.DESTINATION_BUCKET
                      (toPngPath filePath)
          ∈ calls (Push.handler calm (push_of "case(O100)(I1).pdf") sole_state).2.
Proof.
  apply (tracking_follows_the_upload calm (push_of "case(O100)(I1).pdf") sole_state).
  right. vm_compute. done.
Defined.

(** ** The webhook *)

Lemma webhookCalls_pushCalls (w : world) (b f o i : string) (db : store) :
  webhookCalls (pushCalls w b f o i db)
  = if tracked w && completionCheck (dbUpdate i flagExtracted db) o
    then [AxiosPost Push.WEBHOOK_URL o] else [].
Proof.
  unfold pushCalls, tracked, transferred.
  by destruct (download_ok w), (gs_ok w), (upload_ok w), (update_ok w), (query_ok w),
    (completionCheck (dbUpdate i flagExtracted db) o).
Qed.

Lemma post_in_pushCalls (w : world) (b f o i : string) (db : store) url order :
  AxiosPost url order ∈ pushCalls w b f o i db ↔
  url = Push.WEBHOOK_URL ∧ order = o ∧ tracked w = true
  ∧ completionCheck (dbUpdate i flagExtracted db) o = true.
Proof.
  unfold pushCalls, tracked, transferred.
  destruct (download_ok w), (gs_ok w), (upload_ok w), (update_ok w), (query_ok w),
    (completionCheck (dbUpdate i flagExtracted db) o); simpl;
    rewrite ?elem_of_cons, ?elem_of_nil; naive_solver.
Qed.

Lemma createTempDir_ok (w : world) (filePath : string) (st : state) :
  (Push.createTempDir w filePath st).1 = Ok (workspace w filePath)
  ↔ workspace w filePath ∉ dirs st.
Proof. rewrite createTempDir_result. case_bool_decide; naive_solver. Qed.

Lemma createTempDir_thrown (w : world) (filePath : string) (st : state) :
  (Push.createTempDir w filePath st).1 = Thrown ↔ workspace w filePath ∈ dirs st.
Proof. rewrite createTempDir_result. case_bool_decide; naive_solver. Qed.

(** X10. When the item identifier of the key is a key of the database and the
    name of the directory is within the limits of the file system, a handling
    by the push endpoint posts to the webhook once at most, and it posts
    exactly when the key is a [.pdf] with a pair of identifiers,
    [createTempDir] returns, every step up to the query succeeds and the
    completion check passes on the store as updated; the post goes to the
    fixed address and carries the first identifier of the key as the order. *)
Theorem webhook_once (w : world) (req : Push.request) (st : state) :
  namesDatabaseKey w req = true →
  directoryFits w req = true →
  ∃ new,
    calls (Push.handler w req st).2 = calls st ++ new
    ∧ length (webhookCalls new) ≤ 1
    ∧ ∀ url order,
        AxiosPost url order ∈ new ↔
        url = "https://tangleapps.com/webhook?workflow=-OGo_Wq_agZdYobMm4ev&dashboard=-N6rrHXdX4pO-T2cMbmS"
        ∧ ∃ bucketName filePath i,
            pushEvent w req = Some (bucketName, filePath)
            ∧ isPdf filePath = true
            ∧ parseIds filePath = Some (Some order, Some i)
            ∧ databaseKey i = true
            ∧ (Push.createTempDir w filePath st).1 = Ok (workspace w filePath)
            ∧ tracked w = true
            ∧ completionCheck (dbUpdate i flagExtracted (orderItems st)) order = true.
Proof.
  intros Hkey _.
  destruct (push_cases w req st) as [Hsame|(b & f & o & i & Hev & Hpdf & Hids)].
  - exists []. rewrite Hsame, app_nil_r. split_and!; [done|simpl; lia|].
    intros url order. split; [by intros ?%elem_of_nil|].
    intros (_ & b & f & i & Hev & Hpdf & Hids & _ & Hfresh%createTempDir_ok & Hok & Hcheck).
    rewrite (push_outcome _ _ _ _ _ _ _ Hev Hpdf Hids Hfresh) in Hsame.
    apply (f_equal calls) in Hsame. simpl in Hsame. unfold pushCalls in Hsame.
    apply (f_equal length) in Hsame. rewrite length_app in Hsame. simpl in Hsame. lia.
  - assert (databaseKey i = true) as Hi.
    { unfold namesDatabaseKey in Hkey. by rewrite Hev, Hids in Hkey. }
    destruct (decide (workspace w f ∈ dirs st)) as [Htaken|Hfresh].
    + rewrite (push_dir_taken _ _ _ _ _ _ Hev Hpdf Hids Htaken). simpl.
      eexists. split_and!; [done|simpl; lia|].
      intros url order. split; [by intros ?%list_elem_of_singleton|].
      intros (_ & b' & f' & i' & Hev' & _ & _ & _ & Hfresh%createTempDir_ok & _).
      rewrite Hev in Hev'. injection Hev' as <- <-. contradiction.
    + rewrite (push_outcome _ _ _ _ _ _ _ Hev Hpdf Hids Hfresh). simpl.
      eexists. split_and!; [done| |].
      * rewrite webhookCalls_pushCalls. destruct (_ && _); simpl; lia.
      * intros url order. rewrite post_in_pushCalls. split.
        -- intros (-> & -> & Hok & Hcheck). split; [done|]. exists b, f, i.
           split_and!; try done. by apply createTempDir_ok.
        -- intros (-> & b' & f' & i' & Hev' & _ & Hids' & _ & _ & Hok & Hcheck).
           rewrite Hev in Hev'. injection Hev' as <- <-.
           rewrite Hids in Hids'. injection Hids' as <- <-. done.
Qed.

Lemma webhook_once_witness :
  ∃ new,
    calls (Push.handler calm (push_of "case(O100)(I1).pdf") sole_state).2
      = calls sole_state ++ new
    ∧ length (webhookCalls new) ≤ 1
    ∧ ∀ url order,
        AxiosPost url order ∈ new ↔
        url = "https://tangleapps.com/webhook?workflow=-OGo_Wq_agZdYobMm4ev&dashboard=-N6rrHXdX4pO-T2cMbmS"
        ∧ ∃ bucketName filePath i,
            pushEvent calm (push_of "case(O100)(I1).pdf") = Some (bucketName, filePath)
            ∧ isPdf filePath = true
            ∧ parseIds filePath = Some (Some order, Some i)
            ∧ databaseKey i = true
            ∧ (Push.createTempDir calm filePath sole_state).1 = Ok (workspace calm filePath)
            ∧ tracked calm = true
            ∧ completionCheck (dbUpdate i flagExtracted (orderItems sole_state)) order = true.
Proof.
  apply (webhook_once calm (push_of "case(O100)(I1).pdf") sole_state); reflexivity.
Defined.

(** ** The completion check and the update *)

Lemma dbUpdate_flag (i : string) (db : store) :
  dbUpdate i flagExtracted db
  = <[i := <["pngExtracted" := JBool true]> (default ∅ (db !! i))]> db.
Proof.
  unfold dbUpdate, flagExtracted. simpl. f_equal.
  by rewrite <- insert_union_l, (left_id_L ∅ (∪)).
Qed.

(** The records of an order after the update, against those before it. *)
Lemma dbUpdate_order_before (i o id : string) (db : store) (item : record) :
  dbUpdate i flagExtracted db !! id = Some item →
  item !! "order" = Some (JStr o) →
  ∃ item0, db !! id = Some item0
           ∧ item0 !! "order" = Some (JStr o)
           ∧ item0 !! "orderItemStatus" = item !! "orderItemStatus"
           ∧ (id = i → truthy (item !! "pngExtracted") = true)
           ∧ (id ≠ i → item = item0).
Proof.
  rewrite dbUpdate_flag. destruct (decide (id = i)) as [->|Hid].
  - rewrite lookup_insert_eq. intros [= <-]. rewrite lookup_insert_ne by done.
    destruct (db !! i) as [item0|]; simpl; [|by rewrite lookup_empty].
    intros Hord. exists item0. split_and!; [done|done| | |done].
    + by rewrite lookup_insert_ne.
    + intros _. by rewrite lookup_insert_eq.
  - rewrite lookup_insert_ne by done. intros Hid' Hord. exists item.
    by split_and!.
Qed.

Lemma dbUpdate_order_after (i o id : string) (db : store) (item0 : record) :
  db !! id = Some item0 →
  item0 !! "order" = Some (JStr o) →
  ∃ item, dbUpdate i flagExtracted db !! id = Some item
          ∧ item !! "order" = Some (JStr o).
Proof.
  intros Hid Hord. rewrite dbUpdate_flag. destruct (decide (id = i)) as [->|Hne].
  - rewrite lookup_insert_eq, Hid. eexists. split; [done|]. simpl.
    by rewrite lookup_insert_ne.
  - rewrite lookup_insert_ne by done. eauto.
Qed.

(** X11. Setting the flag of an item completes its order when the rest is
    ready: if the store holds the item named by the key with the order named
    by the key, and every other approved item of that order is extracted,
    then the completion check passes on the updated store, whatever the flag
    and the status of the item were. *)
Theorem last_item_completes_the_order (db : store) (o i : string) (item : record) :
  db !! i = Some item →
  item !! "order" = Some (JStr o) →
  (∀ id other,
     id ≠ i → db !! id = Some other → other !! "order" = Some (JStr o) →
     other !! "orderItemStatus" = Some (JStr Push.APPROVED) →
     truthy (other !! "pngExtracted") = true) →
  completionCheck (dbUpdate i flagExtracted db) o = true.
Proof.
  intros Hi Hord Hothers. apply completionCheck_spec. split.
  - destruct (dbUpdate_order_after i o i db item Hi Hord) as (item' & ? & ?). eauto.
  - intros id item' Hid Hord' Happ.
    destruct (dbUpdate_order_before _ _ _ _ _ Hid Hord')
      as (item0 & Hid0 & Hord0 & Hst & Hsame & Hother).
    destruct (decide (id = i)) as [->|Hne]; [by apply Hsame|].
    rewrite (Hother Hne). apply (Hothers id); [done|done|done|].
    by rewrite Hst.
Qed.

Lemma last_item_completes_the_order_witness :
  completionCheck (dbUpdate "2" flagExtracted (two_approved false)) "X" = true.
Proof.
  apply (last_item_completes_the_order (two_approved false) "X" "2"
           (list_to_map [("order", JStr "X"); ("orderItemStatus", JStr Push.APPROVED);
                         ("pngExtracted", JBool false)])).
  - vm_compute. done.
  - vm_compute. done.
  - intros id other Hne Hid Hord Happ.
    destruct (decide (id = "1")) as [->|Hne1].
    + vm_compute in Hid. injection Hid as <-. vm_compute. done.
    + unfold two_approved in Hid. simpl in Hid.
      rewrite !lookup_insert_ne in Hid by done. by rewrite lookup_empty in Hid.
Defined.

(** X12. For an item identifier that is a key of the database, setting the
    flag never undoes a completion, and naming an item unknown to the store
    changes the check of no order: the check that passed before the update
    passes after it, and when the store holds no record under the identifier
    the check gives after the update what it gave before, for every order
    (the record that the update creates belongs to no order). *)
Theorem update_keeps_completion (db : store) (o i : string) :
  databaseKey i = true →
  (completionCheck db o = true → completionCheck (dbUpdate i flagExtracted db) o = true)
  ∧ (db !! i = None →
     completionCheck (dbUpdate i flagExtracted db) o = completionCheck db o).
Proof.
  intros _.
  assert (completionCheck db o = true →
          completionCheck (dbUpdate i flagExtracted db) o = true) as Hmono.
  { intros [(id & item0 & Hid & Hord) Hall]%completionCheck_spec.
    apply completionCheck_spec. split.
    - destruct (dbUpdate_order_after i o id db item0 Hid Hord) as (item' & ? & ?). eauto.
    - intros id' item' Hid' Hord' Happ.
      destruct (dbUpdate_order_before _ _ _ _ _ Hid' Hord')
        as (item1 & Hid1 & Hord1 & Hst & Hsame & Hother).
      destruct (decide (id' = i)) as [->|Hne]; [by apply Hsame|].
      rewrite (Hother Hne). apply (Hall id'); [done|done|]. by rewrite Hst. }
  split; [done|].
  intros Hnone. destruct (completionCheck db o) eqn:Hcheck; [by apply Hmono|].
  apply not_true_is_false.
  intros [(id & item' & Hid & Hord) Hall]%completionCheck_spec.
  apply not_true_iff_false in Hcheck. apply Hcheck, completionCheck_spec.
  destruct (dbUpdate_order_before _ _ _ _ _ Hid Hord) as (item0 & Hid0 & Hord0 & _).
  split; [eauto|].
  intros id1 item1 Hid1 Hord1 Happ.
  assert (id1 ≠ i) as Hne by (intros ->; congruence).
  apply (Hall id1); [|done|done].
  by rewrite dbUpdate_flag, lookup_insert_ne.
Qed.

Lemma update_keeps_completion_witness :
  (completionCheck (two_approved true) "X" = true →
   completionCheck (dbUpdate "I9" flagExtracted (two_approved true)) "X" = true)
  ∧ (two_approved true !! "I9" = None →
     completionCheck (dbUpdate "I9" flagExtracted (two_approved true)) "X"
     = completionCheck (two_approved true) "X").
Proof. apply (update_keeps_completion (two_approved true) "X" "I9"). reflexivity. Defined.

(** ** A second delivery *)

Lemma dbUpdate_idemp (i : string) (db : store) :
  dbUpdate i flagExtracted (dbUpdate i flagExtracted db) = dbUpdate i flagExtracted db.
Proof.
  rewrite (dbUpdate_flag i (dbUpdate i flagExtracted db)), (dbUpdate_flag i db).
  rewrite lookup_insert_eq. simpl. by rewrite !insert_insert_eq.
Qed.

(** The push handler sends the body of a finished conversion only when the
    directory was free and every step up to the query succeeded. *)
Lemma push_converted (w : world) (req : Push.request) (st : state)
    (bucketName filePath o i : string) :
  pushEvent w req = Some (bucketName, filePath) →
  isPdf filePath = true →
  parseIds filePath = Some (Some o, Some i) →
  (Push.handler w req st).1
    = Ok (Push.StatusSend 200 ("Converted PDF to PNG for file: " +:+ filePath)) →
  (workspace w filePath ∉ dirs st) ∧ tracked w = true.
Proof.
  intros Hev Hpdf Hids.
  destruct (decide (workspace w filePath ∈ dirs st)) as [Htaken|Hfresh].
  - by rewrite (push_dir_taken _ _ _ _ _ _ Hev Hpdf Hids Htaken).
  - rewrite (push_outcome _ _ _ _ _ _ _ Hev Hpdf Hids Hfresh). simpl.
    by destruct (tracked w).
Qed.

(** X13. When the same request is handled a second time, by a handling that
    may draw another random number, and both handlings finish the conversion
    (each sends the body of a finished conversion), the second changes
    nothing but the record of the calls: the directories, the objects of the
    buckets and the store are as the first handling left them. The second
    handling uploads and updates again, and it posts to the webhook exactly
    when the first did. The item identifier is taken to be a key of the
    database, and the names of the two directories to be within the limits
    of the file system. *)
Theorem second_delivery (w1 w2 : world) (st : state) (req : Push.request)
    (bucketName filePath o i : string) :
  pushEvent w1 req = Some (bucketName, filePath) →
  pushEvent w2 req = Some (bucketName, filePath) →
  isPdf filePath = true →
  parseIds filePath = Some (Some o, Some i) →
  databaseKey i = true →
  nameFits w1 filePath = true →
  nameFits w2 filePath = true →
  (Push.handler w1 req st).1
    = Ok (Push.StatusSend 200 ("Converted PDF to PNG for file: " +:+ filePath)) →
  (Push.handler w2 req (Push.handler w1 req st).2).1
    = Ok (Push.StatusSend 200 ("Converted PDF to PNG for file: " +:+ filePath)) →
  dirs (Push.handler w2 req (Push.handler w1 req st).2).2
    = dirs (Push.handler w1 req st).2
  ∧ objects (Push.handler w2 req (Push.handler w1 req st).2).2
    = objects (Push.handler w1 req st).2
  ∧ orderItems (Push.handler w2 req (Push.handler w1 req st).2).2
    = orderItems (Push.handler w1 req st).2
  ∧ ∃ new1 new2,
      calls (Push.handler w1 req st).2 = calls st ++ new1
      ∧ calls (Push.handler w2 req (Push.handler w1 req st).2).2
        = calls (Push.handler w1 req st).2 ++ new2
      ∧ StorageUpload (toPngPath (pdfIn w2 filePath)) Push.DESTINATION_BUCKET
                      (toPngPath filePath) ∈ new2
      ∧ DbUpdate i [("pngExtracted", JBool true)] ∈ new2
      ∧ webhookCalls new2 = webhookCalls new1.
Proof.
  intros Hev1 Hev2 Hpdf Hids _ _ _ Hfirst Hsecond.
  destruct (push_converted _ _ _ _ _ _ _ Hev1 Hpdf Hids Hfirst) as [Hfresh1 Hok1].
  destruct (push_converted _ _ _ _ _ _ _ Hev2 Hpdf Hids Hsecond) as [Hfresh2 Hok2].
  rewrite (push_outcome w2 req (Push.handler w1 req st).2 bucketName filePath o i
             Hev2 Hpdf Hids Hfresh2).
  rewrite (push_outcome _ _ _ _ _ _ _ Hev1 Hpdf Hids Hfresh1) in Hfresh2 |- *.
  destruct (tracked_true _ Hok1) as (Hdl1 & Hgs1 & Hup1 & Hupd1 & Hqry1).
  destruct (tracked_true _ Hok2) as (Hdl2 & Hgs2 & Hup2 & Hupd2 & Hqry2).
  assert (transferred w1 = true) as Htr1 by (unfold transferred; by rewrite Hdl1, Hgs1, Hup1).
  assert (transferred w2 = true) as Htr2 by (unfold transferred; by rewrite Hdl2, Hgs2, Hup2).
  rewrite Hok1 in Hfresh2. simpl in Hfresh2.
  rewrite Hok1, Hok2, Htr1, Htr2, Hupd1, Hupd2. simpl.
  split_and!; [set_solver|set_solver|apply dbUpdate_idemp|].
  eexists _, _. split_and!; [done|done| | |].
  - unfold pushCalls. rewrite Hdl2, Hgs2. set_solver.
  - unfold pushCalls. rewrite Hdl2, Hgs2, Hup2. set_solver.
  - rewrite !webhookCalls_pushCalls, Hok1, Hok2. by rewrite dbUpdate_idemp.
Qed.

Lemma second_delivery_witness :
  dirs (Push.handler calm_again (push_of "case(O100)(I1).pdf")
          (Push.handler calm (push_of "case(O100)(I1).pdf") sole_state).2).2
    = dirs (Push.handler calm (push_of "case(O100)(I1).pdf") sole_state).2
  ∧ objects (Push.handler calm_again (push_of "case(O100)(I1).pdf")
               (Push.handler calm (push_of "case(O100)(I1).pdf") sole_state).2).2
    = objects (Push.handler calm (push_of "case(O100)(I1).pdf") sole_state).2
  ∧ orderItems (Push.handler calm_again (push_of "case(O100)(I1).pdf")
                  (Push.handler calm (push_of "case(O100)(I1).pdf") sole_state).2).2
    = orderItems (Push.handler calm (push_of "case(O100)(I1).pdf") sole_state).2
  ∧ ∃ new1 new2,
      calls (Push.handler calm (push_of "case(O100)(I1).pdf") sole_state).2
        = calls sole_state ++ new1
      ∧ calls (Push.handler calm_again (push_of "case(O100)(I1).pdf")
                 (Push.handler calm (push_of "case(O100)(I1).pdf") sole_state).2).2
        = calls (Push.handler calm (push_of "case(O100)(I1).pdf") sole_state).2 ++ new2
      ∧ StorageUpload (toPngPath (pdfIn calm_again "case(O100)(I1).pdf"))
                      Push.DESTINATION_BUCKET (toPngPath "case(O100)(I1).pdf") ∈ new2
      ∧ DbUpdate "I1" [("pngExtracted", JBool true)] ∈ new2
      ∧ webhookCalls new2 = webhookCalls new1.
Proof.
  apply (second_delivery calm calm_again sole_state (push_of "case(O100)(I1).pdf")
           "pdf-to-png" "case(O100)(I1).pdf" "O100" "I1");
    try reflexivity; vm_compute; done.
Defined.

Example redelivery_posts_again :
  webhookCalls
    (calls (Push.handler calm_again (push_of "case(O100)(I1).pdf")
              (Push.handler calm (push_of "case(O100)(I1).pdf") sole_state).2).2)
  = [AxiosPost Push.WEBHOOK_URL "O100"; AxiosPost Push.WEBHOOK_URL "O100"].
Proof. vm_compute. done. Qed.

(** ** What a handling reports *)

(** X14. On a [.pdf] key with identifiers, whose directory name is within the
    limits of the file system, the storage-triggered function resolves
    exactly when [createTempDir] returned and download, conversion and upload
    succeeded, and rejects otherwise. The push endpoint, which answers 200 on
    every failure, sends the body of a finished conversion exactly when
    [createTempDir] returned and every step up to the query of the store
    succeeded, and the bare 200 of its [catch] otherwise. *)
Theorem handling_reports (w : world) (st : state) (req : Push.request)
    (object : Direct.storageObject) (bucketName filePath : string) :
  pushEvent w req = Some (bucketName, filePath) →
  Direct.name object = filePath →
  isPdf filePath = true →
  is_Some (parseIds filePath) →
  nameFits w filePath = true →
  ((Direct.createImage w object st).1 = Ok tt
   ↔ (Direct.createTempDir w filePath st).1 = Ok (workspace w filePath)
     ∧ transferred w = true)
  ∧ ((Direct.createImage w object st).1 = Thrown
     ↔ (Direct.createTempDir w filePath st).1 = Thrown ∨ transferred w = false)
  ∧ ((Push.handler w req st).1
       = Ok (Push.StatusSend 200 ("Converted PDF to PNG for file: " +:+ filePath))
     ↔ (Push.createTempDir w filePath st).1 = Ok (workspace w filePath)
       ∧ tracked w = true)
  ∧ ((Push.handler w req st).1 = Ok (Push.SendStatus 200)
     ↔ (Push.createTempDir w filePath st).1 = Thrown ∨ tracked w = false).
Proof.
  intros Hev <- Hpdf [[orderId orderItemId] Hids] _.
  destruct (parseIds_truthy _ _ _ Hids) as (o & i & -> & -> & _).
  change (Direct.createTempDir w (Direct.name object) st)
    with (Push.createTempDir w (Direct.name object) st).
  rewrite createTempDir_ok, createTempDir_thrown.
  destruct (decide (workspace w (Direct.name object) ∈ dirs st)) as [Htaken|Hfresh].
  - rewrite (direct_dir_taken _ _ _ Hpdf Htaken).
    rewrite (push_dir_taken _ _ _ _ _ _ Hev Hpdf Hids Htaken). simpl.
    split_and!; split; try done; try tauto; try (intros []; done); auto.
  - rewrite (direct_outcome _ _ _ Hpdf Hfresh).
    rewrite (push_outcome _ _ _ _ _ _ _ Hev Hpdf Hids Hfresh). simpl.
    destruct (transferred w), (tracked w); simpl;
      split_and!; split; try done; try tauto; try (intros []; done); auto.
Qed.

Lemma handling_reports_witness :
  ((Direct.createImage noDownload (Direct.StorageObject "pdf-to-png" "case(O100)(I1).pdf")
                       empty_state).1 = Ok tt
   ↔ (Direct.createTempDir noDownload "case(O100)(I1).pdf" empty_state).1
       = Ok (workspace noDownload "case(O100)(I1).pdf")
     ∧ transferred noDownload = true)
  ∧ ((Direct.createImage noDownload (Direct.StorageObject "pdf-to-png" "case(O100)(I1).pdf")
                         empty_state).1 = Thrown
     ↔ (Direct.createTempDir noDownload "case(O100)(I1).pdf" empty_state).1 = Thrown
       ∨ transferred noDownload = false)
  ∧ ((Push.handler noDownload (push_of "case(O100)(I1).pdf") empty_state).1
       = Ok (Push.StatusSend 200
               ("Converted PDF to PNG for file: " +:+ "case(O100)(I1).pdf"))
     ↔ (Push.createTempDir noDownload "case(O100)(I1).pdf" empty_state).1
         = Ok (workspace noDownload "case(O100)(I1).pdf")
       ∧ tracked noDownload = true)
  ∧ ((Push.handler noDownload (push_of "case(O100)(I1).pdf") empty_state).1
       = Ok (Push.SendStatus 200)
     ↔ (Push.createTempDir noDownload "case(O100)(I1).pdf" empty_state).1 = Thrown
       ∨ tracked noDownload = false).
Proof.
  apply (handling_reports noDownload empty_state (push_of "case(O100)(I1).pdf")
           (Direct.StorageObject "pdf-to-png" "case(O100)(I1).pdf")
           "pdf-to-png" "case(O100)(I1).pdf"); try reflexivity; vm_compute; eauto.
Defined.

(** ** The guard of the tracking steps *)

(** X15. The test [orderId && orderItemId] of line 94 holds whenever it is
    reached: a key that the parsing accepts gives two identifiers that are
    not empty, so the tracking steps of an accepted key are the update of the
    named record followed by the query and the check, never nothing. *)
Theorem tracking_guard_holds (w : world) (st : state) (filePath : string)
    (orderId orderItemId : option string) :
  parseIds filePath = Some (orderId, orderItemId) →
  truthyStr orderId && truthyStr orderItemId = true
  ∧ ∃ o i,
      orderId = Some o ∧ orderItemId = Some i
      ∧ Push.trackOrder w orderId orderItemId st
        = (if update_ok w && query_ok w then Ok tt else Thrown,
           State (dirs st) (objects st)
                 (if update_ok w then dbUpdate i [("pngExtracted", JBool true)] (orderItems st)
                  else orderItems st)
                 (calls st ++ DbUpdate i [("pngExtracted", JBool true)]
                    :: (if update_ok w then
                          DbQuery "order" (JStr o)
                          :: (if query_ok w
                                 && completionCheck
                                      (dbUpdate i [("pngExtracted", JBool true)] (orderItems st)) o
                              then [AxiosPost Push.WEBHOOK_URL o] else [])
                        else []))).
Proof.
  intros (o & i & -> & -> & Ho & Hi)%parseIds_truthy.
  rewrite !truthyStr_some by done. split; [done|]. exists o, i. split_and!; [done|done|].
  unfold Push.trackOrder. rewrite !truthyStr_some by done. simpl andb. cbv iota.
  unfold orderItemUpdate, record_call, settle, bind, ret, throw. simpl.
  destruct (update_ok w); simpl; [|done].
  rewrite notifyIfComplete_run. simpl. by rewrite <- app_assoc.
Qed.

Lemma tracking_guard_holds_witness :
  truthyStr (Some "O100") && truthyStr (Some "I1") = true
  ∧ ∃ o i,
      Some "O100" = Some o ∧ Some "I1" = Some i
      ∧ Push.trackOrder calm (Some "O100") (Some "I1") sole_state
        = (if update_ok calm && query_ok calm then Ok tt else Thrown,
           State (dirs sole_state) (objects sole_state)
                 (if update_ok calm
                  then dbUpdate i [("pngExtracted", JBool true)] (orderItems sole_state)
                  else orderItems sole_state)
                 (calls sole_state ++ DbUpdate i [("pngExtracted", JBool true)]
                    :: (if update_ok calm then
                          DbQuery "order" (JStr o)
                          :: (if query_ok calm
                                 && completionCheck
                                      (dbUpdate i [("pngExtracted", JBool true)]
                                                (orderItems sole_state)) o
                              then [AxiosPost Push.WEBHOOK_URL o] else [])
                        else []))).
Proof.
  apply (tracking_guard_holds calm sole_state "case(O100)(I1).pdf" (Some "O100") (Some "I1")).
  reflexivity.
Defined.

(** ** The keys that pass the suffix test *)

Lemma lower_inv (lo : ascii) (y : ascii) :
  Str.lower y = lo → y = lo ∨ Str.lower y = lo ∧ Str.is_upper y = true.
Proof.
  unfold Str.lower. destruct (Str.is_upper y) eqn:Hy; [|by left]. intros <-. by right.
Qed.

Lemma upper_of_lower (y : ascii) :
  Str.is_upper y = true → y = ascii_of_nat (nat_of_ascii (Str.lower y) - 32).
Proof.
  intros Hy. unfold Str.lower. rewrite Hy.
  unfold Str.is_upper in Hy. apply andb_true_iff in Hy as [Hlo Hhi].
  apply Nat.leb_le in Hlo, Hhi.
  rewrite nat_ascii_embedding by lia.
  replace (nat_of_ascii y + 32 - 32) with (nat_of_ascii y) by lia.
  by rewrite ascii_nat_embedding.
Qed.

Lemma lower_is (lo up x : ascii) :
  Str.is_upper lo = false →
  up = ascii_of_nat (nat_of_ascii lo - 32) →
  Str.lower up = lo →
  Str.lower x = lo ↔ x = lo ∨ x = up.
Proof.
  intros Hlo Hup Hlow. split.
  - intros Hx. destruct (lower_inv _ _ Hx) as [?|[_ Hy]]; [by left|right].
    rewrite (upper_of_lower _ Hy), Hx. done.
  - intros [-> | ->]; [|done]. unfold Str.lower. by rewrite Hlo.
Qed.

Lemma lower_dot (x : ascii) : Str.lower x = "."%char ↔ x = "."%char.
Proof.
  split; [|by intros ->].
  intros Hx. destruct (lower_inv _ _ Hx) as [?|[_ Hy]]; [done|].
  pose proof (upper_of_lower _ Hy) as Hup. rewrite Hx in Hup. subst x.
  by vm_compute in Hy.
Qed.

(** X16. The suffix test accepts exactly the keys that end in a dot followed
    by [p] or [P], [d] or [D], [f] or [F]: the key [.pdf] itself is accepted,
    and nothing may follow the suffix. *)
Theorem isPdf_exactly (s : string) :
  isPdf s = true ↔
  ∃ stem a b c,
    s = stem +:+ String "." (String a (String b (String c EmptyString)))
    ∧ (a = "p" ∨ a = "P")%char ∧ (b = "d" ∨ b = "D")%char ∧ (c = "f" ∨ c = "F")%char.
Proof.
  rewrite isPdf_split. split.
  - intros (stem & ext & -> & Hext).
    destruct ext as [|x [|a [|b [|c [|e rest]]]]]; simpl in Hext; try done.
    injection Hext as Hx Ha Hb Hc.
    apply lower_dot in Hx as ->.
    apply (lower_is "p" "P") in Ha; [|done..].
    apply (lower_is "d" "D") in Hb; [|done..].
    apply (lower_is "f" "F") in Hc; [|done..].
    exists stem, a, b, c. done.
  - intros (stem & a & b & c & -> & Ha & Hb & Hc).
    eexists stem, _. split; [done|]. simpl.
    apply (lower_is "p" "P") in Ha; [|done..].
    apply (lower_is "d" "D") in Hb; [|done..].
    apply (lower_is "f" "F") in Hc; [|done..].
    by rewrite Ha, Hb, Hc.
Qed.

Example isPdf_samples :
  isPdf ".pdf" = true ∧ isPdf "a.PdF" = true ∧ isPdf "a.pdf " = false
  ∧ isPdf "apdf" = false ∧ isPdf "" = false ∧ isPdf "a.pdf/b" = false.
Proof. done. Qed.
